(** * vault_client.py: the charm library that drives a Vault cluster

    A shallow embedding of [lib/charms/vault_k8s/v0/vault_client.py].  The
    class [Vault] wraps an [hvac.Client]; every method is one or two calls
    on that client, wrapped in the [try]/[except] policy of the method.

    - Python exceptions are values of [exn] (a class and a message); the
      class hierarchy that [except] clauses test is [mro].
    - JSON-like responses are [value]s; subscripting and iteration raise
      [KeyError]/[TypeError] the way Python does.
    - The client is a record of operations over an abstract cluster state
      [W]; a method of [Vault] is a computation in the monad [M W], which
      threads the cluster state and the records emitted on the module's
      [logger], and either returns or raises.  *)

From Stdlib Require Import ZArith String List.
From stdpp Require Import base gmap strings list pretty.

#[local] Set Warnings "-register-all".
#[local] Open Scope string_scope.

(** ** Exceptions *)

(** The exception classes the module imports ([hvac.exceptions],
    [requests.exceptions]) with some of their siblings, and the two
    builtins that subscripting and iteration raise. *)
Inductive exn_class : Set :=
  | VaultError
  | InvalidRequest
  | Unauthorized
  | Forbidden
  | InvalidPath
  | InternalServerError
  | VaultNotInitialized
  | VaultDown
  | RequestException
  | ConnectionError
  | Timeout
  | KeyError
  | TypeError.

#[global] Instance exn_class_eq_dec : EqDecision exn_class.
Proof. solve_decision. Defined.

(** Method resolution order of a class, cut below [Exception]. *)
Definition mro (c : exn_class) : list exn_class :=
  match c with
  | VaultError => [VaultError]
  | InvalidRequest | Unauthorized | Forbidden | InvalidPath
  | InternalServerError | VaultNotInitialized | VaultDown => [c; VaultError]
  | RequestException => [RequestException]
  | ConnectionError | Timeout => [c; RequestException]
  | KeyError => [KeyError]
  | TypeError => [TypeError]
  end.

Record exn : Set := Exn { exn_cls : exn_class; exn_msg : string }.

#[global] Instance exn_eq_dec : EqDecision exn.
Proof. solve_decision. Defined.

(** [isinstance(e, cls)]. *)
Definition isinstance (e : exn) (cls : exn_class) : bool :=
  bool_decide (cls ∈ mro (exn_cls e)).

(** [isinstance(e, (cls1, cls2, ...))], as an [except (A, B)] clause tests. *)
Definition isinstance_any (e : exn) (clss : list exn_class) : bool :=
  existsb (isinstance e) clss.

Inductive result (A : Type) : Type :=
  | Ok (a : A)
  | Raise (e : exn).
Arguments Ok {A} a.
Arguments Raise {A} e.

(** ** Values *)

(** What a decoded response body is made of. *)
Inductive value :=
  | VNone
  | VBool (b : bool)
  | VInt (z : Z)
  | VStr (s : string)
  | VList (l : list value)
  | VDict (d : gmap string value).

(** [v[key]] for a string key. *)
Definition getitem (v : value) (key : string) : result value :=
  match v with
  | VDict d =>
      match d !! key with
      | Some x => Ok x
      | None => Raise (Exn KeyError key)
      end
  | VList _ => Raise (Exn TypeError "list indices must be integers or slices, not str")
  | VStr _ => Raise (Exn TypeError "string indices must be integers, not 'str'")
  | VNone | VBool _ | VInt _ => Raise (Exn TypeError "object is not subscriptable")
  end.

Fixpoint chars (s : string) : list value :=
  match s with
  | EmptyString => []
  | String a s' => VStr (String a EmptyString) :: chars s'
  end.

(** The items a [for] loop over [v] visits.  A dict yields its keys; their
    order here is the map's, not Python's insertion order. *)
Definition iter (v : value) : result (list value) :=
  match v with
  | VList l => Ok l
  | VDict d => Ok (VStr <$> (map_to_list d).*1)
  | VStr s => Ok (chars s)
  | VNone | VBool _ | VInt _ => Raise (Exn TypeError "object is not iterable")
  end.

(** [len(v)]. *)
Definition len (v : value) : result Z :=
  match v with
  | VList l => Ok (Z.of_nat (length l))
  | VDict d => Ok (Z.of_nat (size d))
  | VStr s => Ok (Z.of_nat (String.length s))
  | VNone | VBool _ | VInt _ => Raise (Exn TypeError "object has no len()")
  end.

(** [v == s] for a [str] [s]: values of different types are unequal. *)
Definition eq_str (v : value) (s : string) : bool :=
  match v with
  | VStr t => bool_decide (t = s)
  | _ => false
  end.

(** A [requests.Response], as far as the module and its callers read it. *)
Record Response : Set := mkResponse { status_code : Z; content : string }.

(** ** The data classes and enumerations of the module *)

(** [Certificate]: the annotations ([str], [str], [List[str]]) are not
    checked at run time, the fields hold what the response held. *)
Record Certificate := mkCertificate {
  certificate : value;
  ca : value;
  chain : value
}.

Inductive AuditDeviceType : Set := FILE | SYSLOG | SOCKET.

Definition AuditDeviceType_value (t : AuditDeviceType) : string :=
  match t with
  | FILE => "file"
  | SYSLOG => "syslog"
  | SOCKET => "socket"
  end.

Inductive SecretsBackend : Set := KV_V2 | PKI.

Definition SecretsBackend_value (b : SecretsBackend) : string :=
  match b with
  | KV_V2 => "kv-v2"
  | PKI => "pki"
  end.

Definition RAFT_STATE_ENDPOINT : string := "v1/sys/storage/raft/autopilot/state".

(** ** Logging *)

Inductive level : Set := DEBUG | INFO | WARNING | ERROR.

#[global] Instance level_eq_dec : EqDecision level.
Proof. solve_decision. Defined.

Record log_record : Set := LogRecord { log_level : level; log_text : string }.

#[global] Instance log_record_eq_dec : EqDecision log_record.
Proof. solve_decision. Defined.

(** ** The monad of the methods *)

Section Monad.
Context {W : Type}.

(** A call on the client: it may change the cluster and returns or raises. *)
Definition Call (A : Type) : Type := W -> result A * W.

Record state : Type := mkState { world : W; log : list log_record }.

Definition M (A : Type) : Type := state -> result A * state.

Definition ret {A} (a : A) : M A := fun st => (Ok a, st).

Definition raise {A} (e : exn) : M A := fun st => (Raise e, st).

Definition bind {A B} (m : M A) (k : A -> M B) : M B :=
  fun st =>
    match m st with
    | (Ok a, st') => k a st'
    | (Raise e, st') => (Raise e, st')
    end.

(** A client call run from a method: the log is untouched. *)
Definition call {A} (c : Call A) : M A :=
  fun st =>
    let (r, w') := c (world st) in
    (r, {| world := w'; log := log st |}).

(** A pure operation that may raise ([getitem], [iter], [len]). *)
Definition lift {A} (r : result A) : M A := fun st => (r, st).

(** [try: m  except clss as e: h e]. *)
Definition try_except {A} (m : M A) (clss : list exn_class) (h : exn -> M A) : M A :=
  fun st =>
    match m st with
    | (Ok a, st') => (Ok a, st')
    | (Raise e, st') =>
        if isinstance_any e clss then h e st' else (Raise e, st')
    end.

Definition emit (l : level) (text : string) : M unit :=
  fun st => (Ok tt, {| world := world st; log := log st ++ [LogRecord l text] |}).

(** [for x in xs: body x]. *)
Fixpoint for_each {A} (xs : list A) (body : A -> M unit) : M unit :=
  match xs with
  | [] => ret tt
  | x :: xs' => bind (body x) (fun _ => for_each xs' body)
  end.
End Monad.

Arguments Call W A : clear implicits.
Arguments state W : clear implicits.
Arguments M W A : clear implicits.

Declare Scope vault_scope.
Delimit Scope vault_scope with vault.
Notation "x <- m ;; k" := (bind m (fun x => k))
  (at level 100, m at next level, right associativity) : vault_scope.
Notation "m ;;; k" := (bind m (fun _ => k))
  (at level 100, right associativity) : vault_scope.
#[local] Open Scope vault_scope.

(** ** The client *)

(** The part of [hvac.Client] the methods below call.  Keyword arguments
    the source fixes become arguments here in the order of the source. *)
Record Client (W : Type) : Type := mkClient {
  (* client.sys *)
  sys_read_health_status : bool -> Call W Response;
  sys_initialize : Z -> Z -> Call W value;
  sys_is_initialized : Call W bool;
  sys_submit_unseal_key : string -> Call W value;
  sys_is_sealed : Call W bool;
  sys_enable_audit_device : string -> gmap string string -> Call W value;
  sys_enable_auth_method : string -> Call W value;
  sys_enable_secrets_engine : string -> string -> string -> Call W value;
  sys_take_raft_snapshot : Call W Response;
  sys_restore_raft_snapshot : string -> Call W Response;
  sys_force_restore_raft_snapshot : string -> Call W Response;
  sys_remove_raft_node : string -> Call W value;
  sys_read_raft_config : Call W value;
  (* client.secrets.pki *)
  pki_read_ca_certificate : string -> Call W string;
  pki_sign_certificate : string -> string -> string -> string -> Call W value;
  (* client.adapter *)
  adapter_get : string -> Call W value
}.

Arguments sys_read_health_status {W} _ _ _.
Arguments sys_initialize {W} _ _ _ _.
Arguments sys_is_initialized {W} _ _.
Arguments sys_submit_unseal_key {W} _ _ _.
Arguments sys_is_sealed {W} _ _.
Arguments sys_enable_audit_device {W} _ _ _ _.
Arguments sys_enable_auth_method {W} _ _ _.
Arguments sys_enable_secrets_engine {W} _ _ _ _ _.
Arguments sys_take_raft_snapshot {W} _ _.
Arguments sys_restore_raft_snapshot {W} _ _ _.
Arguments sys_force_restore_raft_snapshot {W} _ _ _.
Arguments sys_remove_raft_node {W} _ _ _.
Arguments sys_read_raft_config {W} _ _.
Arguments pki_read_ca_certificate {W} _ _ _.
Arguments pki_sign_certificate {W} _ _ _ _ _ _.
Arguments adapter_get {W} _ _ _.

(** ** class Vault *)

Module Vault.
Section Methods.
Context {W : Type} (client : Client W).

(** [Vault.is_api_available] *)
Definition is_api_available : M W bool :=
  try_except
    (_ <- call (sys_read_health_status client true);;
     ret true)
    [VaultError; RequestException]
    (fun e =>
       emit ERROR ("Error while checking Vault health status: " ++ exn_msg e);;;
       ret false).

(** [Vault.initialize] *)
Definition initialize (secret_shares secret_threshold : Z) : M W (value * value) :=
  initialize_response <- call (sys_initialize client secret_shares secret_threshold);;
  emit INFO "Vault is initialized";;;
  root_token <- lift (getitem initialize_response "root_token");;
  keys <- lift (getitem initialize_response "keys");;
  ret (root_token, keys).

(** [Vault.is_initialized] *)
Definition is_initialized : M W bool :=
  call (sys_is_initialized client).

(** [Vault.unseal] *)
Definition unseal (unseal_keys : list string) : M W unit :=
  try_except
    (for_each unseal_keys
       (fun unseal_key =>
          _ <- call (sys_submit_unseal_key client unseal_key);;
          ret tt);;;
     emit INFO "Vault is unsealed")
    [InvalidRequest]
    (fun e =>
       sealed <- call (sys_is_sealed client);;
       if sealed then raise e else ret tt).

(** [Vault.is_active] *)
Definition is_active : M W bool :=
  try_except
    (health_status <- call (sys_read_health_status client true);;
     ret (Z.eqb (status_code health_status) 200))
    [VaultError; RequestException]
    (fun e =>
       emit ERROR ("Error while checking Vault health status: " ++ exn_msg e);;;
       ret false).

(** [Vault.enable_audit_device] *)
Definition enable_audit_device (device_type : AuditDeviceType) (path : string) : M W unit :=
  try_except
    (_ <- call (sys_enable_audit_device client
                  (AuditDeviceType_value device_type)
                  {[ "file_path" := path ]});;
     emit INFO ("Enabled audit device " ++ AuditDeviceType_value device_type
                ++ " for path " ++ path))
    [InvalidRequest]
    (fun _ => emit INFO "Audit device already enabled.").

(** [Vault.enable_approle_auth_method] *)
Definition enable_approle_auth_method : M W unit :=
  try_except
    (_ <- call (sys_enable_auth_method client "approle");;
     emit INFO "Enabled approle auth method.")
    [InvalidRequest]
    (fun _ => emit INFO "Approle already enabled.").

(** [Vault.enable_secrets_engine] *)
Definition enable_secrets_engine (backend_type : SecretsBackend) (path : string) : M W unit :=
  try_except
    (_ <- call (sys_enable_secrets_engine client
                  (SecretsBackend_value backend_type)
                  ("Charm created '" ++ SecretsBackend_value backend_type ++ "' backend")
                  path);;
     emit INFO ("Enabled " ++ SecretsBackend_value backend_type ++ " backend"))
    [InvalidRequest]
    (fun _ => emit INFO (SecretsBackend_value backend_type ++ " backend already enabled")).

(** [Vault.is_intermediate_ca_set] *)
Definition is_intermediate_ca_set (mount certificate : string) : M W bool :=
  intermediate_ca <- call (pki_read_ca_certificate client mount);;
  ret (bool_decide (intermediate_ca = certificate)).

(** [Vault.get_intermediate_ca] *)
Definition get_intermediate_ca (mount : string) : M W string :=
  call (pki_read_ca_certificate client mount).

(** [Vault.sign_pki_certificate_signing_request] *)
Definition sign_pki_certificate_signing_request
    (mount role csr common_name : string) : M W (option Certificate) :=
  try_except
    (response <- call (pki_sign_certificate client csr mount common_name role);;
     emit INFO ("Signed a PKI certificate for " ++ common_name);;;
     data <- lift (getitem response "data");;
     cert <- lift (getitem data "certificate");;
     data <- lift (getitem response "data");;
     issuing_ca <- lift (getitem data "issuing_ca");;
     data <- lift (getitem response "data");;
     ca_chain <- lift (getitem data "ca_chain");;
     ret (Some {| certificate := cert; ca := issuing_ca; chain := ca_chain |}))
    [InvalidRequest]
    (fun e =>
       emit WARNING ("Error while signing PKI certificate: " ++ exn_msg e);;;
       ret None).

(** [Vault.is_pki_ca_certificate_set] *)
Definition is_pki_ca_certificate_set (mount certificate : string) : M W bool :=
  existing_certificate <- call (pki_read_ca_certificate client mount);;
  ret (bool_decide (existing_certificate = certificate)).

(** [Vault.create_snapshot] *)
Definition create_snapshot : M W Response :=
  call (sys_take_raft_snapshot client).

(** [Vault.restore_snapshot] *)
Definition restore_snapshot (snapshot : string) : M W Response :=
  call (sys_force_restore_raft_snapshot client snapshot).

(** [Vault.get_raft_cluster_state] *)
Definition get_raft_cluster_state : M W value :=
  response <- call (adapter_get client RAFT_STATE_ENDPOINT);;
  lift (getitem response "data").

(** [Vault.is_raft_cluster_healthy]: annotated [bool], it returns the
    field as the response holds it. *)
Definition is_raft_cluster_healthy : M W value :=
  st <- get_raft_cluster_state;;
  lift (getitem st "healthy").

(** [Vault.remove_raft_node] *)
Definition remove_raft_node (node_id : string) : M W unit :=
  _ <- call (sys_remove_raft_node client node_id);;
  emit INFO ("Removed raft node " ++ node_id).

(** The loop of [Vault.is_node_in_raft_peers], which returns from inside
    its body. *)
Fixpoint scan_peers (peers : list value) (node_id : string) : M W bool :=
  match peers with
  | [] => ret false
  | peer :: rest =>
      id <- lift (getitem peer "node_id");;
      if eq_str id node_id then ret true else scan_peers rest node_id
  end.

(** The subscripts [raft_config["data"]["config"]["servers"]]. *)
Definition raft_servers (raft_config : value) : result value :=
  match getitem raft_config "data" with
  | Ok data =>
      match getitem data "config" with
      | Ok config => getitem config "servers"
      | Raise e => Raise e
      end
  | Raise e => Raise e
  end.

(** [Vault.is_node_in_raft_peers] *)
Definition is_node_in_raft_peers (node_id : string) : M W bool :=
  raft_config <- call (sys_read_raft_config client);;
  servers <- lift (raft_servers raft_config);;
  peers <- lift (iter servers);;
  scan_peers peers node_id.

(** [Vault.get_num_raft_peers] *)
Definition get_num_raft_peers : M W Z :=
  raft_config <- call (sys_read_raft_config client);;
  servers <- lift (raft_servers raft_config);;
  lift (len servers).
End Methods.
End Vault.

(** ** The cluster behind the client *)

(** Modelled from the spec: the library that implements the client
    ([hvac]) and the cluster it talks to are not part of the repository.
    The states are those of the lifecycle table of the spec (4.1). *)
Inductive Phase : Set :=
  | UNINITIALIZED
  | SEALED
  | UNSEALED_STANDBY
  | UNSEALED_ACTIVE.

#[global] Instance Phase_eq_dec : EqDecision Phase.
Proof. solve_decision. Defined.

(** Modelled from the spec: a reference cluster that follows the spec's
    lifecycle table, membership operations, idempotent enabling and
    snapshot rules, behind the client interface.  It stands for [hvac]
    and the Vault server, which the repository does not contain; the
    theorems below are stated for every client, or for every client that
    obeys the spec's contract, and use this one to show that such clients
    exist. *)
Module Sim.

Record Cluster : Type := mkCluster {
  phase : Phase;
  keys : list string;              (* unseal keys of the initialization *)
  threshold : nat;
  progress : list string;          (* distinct keys submitted since sealing *)
  seal_key : string;               (* the unseal key set now in force *)
  audit : list (string * string);  (* mount path, file_path option *)
  auths : list (string * string);  (* mount path, method type *)
  mounts : list (string * string); (* mount path, backend type *)
  peers : list string;             (* raft node ids, in reported order *)
  healthy : bool;
  cas : list (string * string);    (* PKI mount, CA certificate *)
  roles : list (string * string * string) (* PKI mount, role, allowed domain *)
}.

Definition set_phase (p : Phase) (w : Cluster) : Cluster :=
  mkCluster p (keys w) (threshold w) (progress w) (seal_key w) (audit w)
    (auths w) (mounts w) (peers w) (healthy w) (cas w) (roles w).

Definition set_keys (ks : list string) (t : nat) (w : Cluster) : Cluster :=
  mkCluster (phase w) ks t (progress w) (seal_key w) (audit w)
    (auths w) (mounts w) (peers w) (healthy w) (cas w) (roles w).

Definition set_progress (ks : list string) (w : Cluster) : Cluster :=
  mkCluster (phase w) (keys w) (threshold w) ks (seal_key w) (audit w)
    (auths w) (mounts w) (peers w) (healthy w) (cas w) (roles w).

Definition set_seal_key (k : string) (w : Cluster) : Cluster :=
  mkCluster (phase w) (keys w) (threshold w) (progress w) k (audit w)
    (auths w) (mounts w) (peers w) (healthy w) (cas w) (roles w).

Definition set_audit (a : list (string * string)) (w : Cluster) : Cluster :=
  mkCluster (phase w) (keys w) (threshold w) (progress w) (seal_key w) a
    (auths w) (mounts w) (peers w) (healthy w) (cas w) (roles w).

Definition set_auths (a : list (string * string)) (w : Cluster) : Cluster :=
  mkCluster (phase w) (keys w) (threshold w) (progress w) (seal_key w) (audit w)
    a (mounts w) (peers w) (healthy w) (cas w) (roles w).

Definition set_mounts (m : list (string * string)) (w : Cluster) : Cluster :=
  mkCluster (phase w) (keys w) (threshold w) (progress w) (seal_key w) (audit w)
    (auths w) m (peers w) (healthy w) (cas w) (roles w).

Definition set_peers (p : list string) (w : Cluster) : Cluster :=
  mkCluster (phase w) (keys w) (threshold w) (progress w) (seal_key w) (audit w)
    (auths w) (mounts w) p (healthy w) (cas w) (roles w).

Definition rejection (text : string) : exn := Exn InvalidRequest text.

(** The spec's [AlreadyInitialized]: a rejection of the cluster. *)
Definition AlreadyInitialized : exn := rejection "Vault is already initialized".

Definition is_sealed_phase (p : Phase) : bool :=
  match p with
  | UNINITIALIZED | SEALED => true
  | UNSEALED_STANDBY | UNSEALED_ACTIVE => false
  end.

(** Health is read with a HEAD request whose status code carries the
    answer; the status is returned, not raised.  The HEAD request of the
    client carries no parameters, so [standby_ok] does not reach the
    server and a standby node answers with its own code. *)
Definition read_health_status (standby_ok : bool) : Call Cluster Response :=
  fun w =>
    let code :=
      match phase w with
      | UNINITIALIZED => 501
      | SEALED => 503
      | UNSEALED_STANDBY => 429
      | UNSEALED_ACTIVE => 200
      end%Z in
    (Ok (mkResponse code ""), w).

Definition fresh_keys (n : nat) : list string :=
  (fun i => "unseal-key-" ++ pretty i) <$> seq 1 n.

Definition initialize (secret_shares secret_threshold : Z) : Call Cluster value :=
  fun w =>
    match phase w with
    | UNINITIALIZED =>
        if bool_decide (1 <= secret_threshold <= secret_shares)%Z then
          let ks := fresh_keys (Z.to_nat secret_shares) in
          (Ok (VDict {[ "root_token" := VStr "root-token";
                        "keys" := VList (VStr <$> ks) ]}),
           set_phase SEALED (set_keys ks (Z.to_nat secret_threshold) w))
        else (Raise (rejection "invalid seal configuration"), w)
    | _ => (Raise AlreadyInitialized, w)
    end.

Definition is_initialized : Call Cluster bool :=
  fun w => (Ok (bool_decide (phase w <> UNINITIALIZED)), w).

Definition seal_status (w : Cluster) : value :=
  VDict {[ "sealed" := VBool (is_sealed_phase (phase w));
           "t" := VInt (Z.of_nat (threshold w));
           "n" := VInt (Z.of_nat (length (keys w)));
           "progress" := VInt (Z.of_nat (length (progress w))) ]}.

(** Fewer than [threshold] distinct keys leave the cluster sealed, which
    is not an error; a string that is no key of the cluster is rejected,
    sealed or not. *)
Definition submit_unseal_key (key : string) : Call Cluster value :=
  fun w =>
    match phase w with
    | UNINITIALIZED => (Raise (rejection "Vault is not initialized"), w)
    | SEALED =>
        if bool_decide (key ∈ keys w) then
          let got := if bool_decide (key ∈ progress w) then progress w
                     else (progress w ++ [key])%list in
          let w' := if bool_decide (threshold w <= length got)%nat
                    then set_phase UNSEALED_ACTIVE (set_progress [] w)
                    else set_progress got w in
          (Ok (seal_status w'), w')
        else (Raise (rejection "invalid unseal key"), w)
    | UNSEALED_STANDBY | UNSEALED_ACTIVE =>
        if bool_decide (key ∈ keys w) then (Ok (seal_status w), w)
        else (Raise (rejection "invalid unseal key"), w)
    end.

Definition is_sealed : Call Cluster bool :=
  fun w => (Ok (is_sealed_phase (phase w)), w).

(** Enabling mounts a resource at a path; a path already in use is
    rejected and nothing changes. *)
Definition enable_at (table : list (string * string)) (path v : string)
    : result (list (string * string)) :=
  if bool_decide (path ∈ table.*1)
  then Raise (rejection ("path is already in use at " ++ path ++ "/"))
  else Ok (table ++ [(path, v)])%list.

(** An audit device is mounted at the path the request names, which is
    the device type when no path is given. *)
Definition enable_audit_device (device_type : string) (options : gmap string string)
    : Call Cluster value :=
  fun w =>
    match enable_at (audit w) device_type (default "" (options !! "file_path")) with
    | Ok t => (Ok VNone, set_audit t w)
    | Raise e => (Raise e, w)
    end.

Definition enable_auth_method (method_type : string) : Call Cluster value :=
  fun w =>
    match enable_at (auths w) method_type method_type with
    | Ok t => (Ok VNone, set_auths t w)
    | Raise e => (Raise e, w)
    end.

Definition enable_secrets_engine (backend_type description path : string)
    : Call Cluster value :=
  fun w =>
    match enable_at (mounts w) path backend_type with
    | Ok t => (Ok VNone, set_mounts t w)
    | Raise e => (Raise e, w)
    end.

(** A snapshot is an opaque blob to the library; the cluster seals it
    with the unseal key in force when it is taken. *)
Definition snapshot_tag : string := "raft-snapshot:".

Definition snapshot_of (w : Cluster) : string := snapshot_tag ++ seal_key w.

Definition snapshot_key (blob : string) : option string :=
  if String.prefix snapshot_tag blob
  then Some (String.substring (String.length snapshot_tag)
               (String.length blob - String.length snapshot_tag) blob)
  else None.

Definition take_raft_snapshot : Call Cluster Response :=
  fun w => (Ok (mkResponse 200 (snapshot_of w)), w).

(** The plain restore checks the key the snapshot was sealed with. *)
Definition restore_raft_snapshot (snapshot : string) : Call Cluster Response :=
  fun w =>
    match snapshot_key snapshot with
    | None => (Raise (rejection "not a snapshot"), w)
    | Some k =>
        if bool_decide (k = seal_key w) then (Ok (mkResponse 204 ""), w)
        else (Raise (rejection "snapshot was taken with another unseal key"), w)
    end.

(** The forced restore does not. *)
Definition force_restore_raft_snapshot (snapshot : string) : Call Cluster Response :=
  fun w =>
    match snapshot_key snapshot with
    | None => (Raise (rejection "not a snapshot"), w)
    | Some _ => (Ok (mkResponse 204 ""), w)
    end.

(** Removing a node that is no peer is not told apart from removing
    one that is. *)
Definition remove_raft_node (server_id : string) : Call Cluster value :=
  fun w =>
    (Ok VNone, set_peers (filter (fun p => p <> server_id) (peers w)) w).

Definition server_entry (node_id : string) : value :=
  VDict {[ "node_id" := VStr node_id; "voter" := VBool true ]}.

Definition raft_config (w : Cluster) : value :=
  VDict {[ "data" :=
    VDict {[ "config" :=
      VDict {[ "servers" := VList (server_entry <$> peers w);
               "index" := VInt 0 ]} ]} ]}.

Definition read_raft_config : Call Cluster value :=
  fun w => (Ok (raft_config w), w).

Definition read_ca_certificate (mount_point : string) : Call Cluster string :=
  fun w => (Ok (default "" (list_to_map (M := gmap string string) (cas w) !! mount_point)), w).

Definition ends_with (s suffix : string) : bool :=
  bool_decide (String.substring (String.length s - String.length suffix)
                 (String.length suffix) s = suffix
               /\ (String.length suffix <= String.length s)%nat).

(** A role signs for its allowed domain and the subdomains of it; any
    other common name is rejected.  Where no PKI engine is mounted the
    path is not found. *)
Definition sign_certificate (csr mount_point common_name name : string)
    : Call Cluster value :=
  fun w =>
    if bool_decide (mount_point ∉ (cas w).*1)
    then (Raise (Exn InvalidPath ("no handler for route " ++ mount_point
                                  ++ "/sign/" ++ name)), w)
    else
    match list_find (fun r => r.1 = (mount_point, name)) (roles w) with
    | None => (Raise (rejection ("unknown role: " ++ name)), w)
    | Some (_, (_, domain)) =>
        if bool_decide (common_name = domain) || ends_with common_name ("." ++ domain)
        then
          let issuer := default "" (list_to_map (M := gmap string string) (cas w) !! mount_point) in
          (Ok (VDict {[ "data" :=
                 VDict {[ "certificate" := VStr ("signed:" ++ csr);
                          "issuing_ca" := VStr issuer;
                          "ca_chain" := VList [VStr issuer] ]} ]}), w)
        else (Raise (rejection ("common name " ++ common_name
                                ++ " not allowed by this role")), w)
    end.

Definition get (path : string) : Call Cluster value :=
  fun w =>
    if bool_decide (path = RAFT_STATE_ENDPOINT)
    then (Ok (VDict {[ "data" :=
                VDict {[ "healthy" := VBool (healthy w);
                         "voters" := VList (VStr <$> peers w) ]} ]}), w)
    else (Raise (Exn InvalidPath path), w).

Definition client : Client Cluster := {|
  sys_read_health_status := read_health_status;
  sys_initialize := initialize;
  sys_is_initialized := is_initialized;
  sys_submit_unseal_key := submit_unseal_key;
  sys_is_sealed := is_sealed;
  sys_enable_audit_device := enable_audit_device;
  sys_enable_auth_method := enable_auth_method;
  sys_enable_secrets_engine := enable_secrets_engine;
  sys_take_raft_snapshot := take_raft_snapshot;
  sys_restore_raft_snapshot := restore_raft_snapshot;
  sys_force_restore_raft_snapshot := force_restore_raft_snapshot;
  sys_remove_raft_node := remove_raft_node;
  sys_read_raft_config := read_raft_config;
  pki_read_ca_certificate := read_ca_certificate;
  pki_sign_certificate := sign_certificate;
  adapter_get := get
|}.

(** A cluster nobody has initialized, with three raft peers. *)
Definition fresh : Cluster := {|
  phase := UNINITIALIZED;
  keys := [];
  threshold := 0;
  progress := [];
  seal_key := "generation-1";
  audit := [];
  auths := [];
  mounts := [];
  peers := ["a"; "b"; "c"];
  healthy := true;
  cas := [("charm-pki", "-----BEGIN CERTIFICATE-----")];
  roles := [("charm-pki", "charm", "vault.local")]
|}.
End Sim.

(** The transport between the client and the cluster: [unreliable c] is
    the client [c] over a link that carries [n] more requests and then
    fails every request with a connection error, before it reaches the
    cluster. *)
Module Link.
Section Link.
Context {W : Type}.

Definition down : exn := Exn ConnectionError "Connection refused".

Definition over {A} (c : Call W A) : Call (W * nat) A :=
  fun '(w, n) =>
    match n with
    | O => (Raise down, (w, O))
    | S n' => let (r, w') := c w in (r, (w', n'))
    end.

Definition unreliable (c : Client W) : Client (W * nat) := {|
  sys_read_health_status := fun standby_ok => over (sys_read_health_status c standby_ok);
  sys_initialize := fun s t => over (sys_initialize c s t);
  sys_is_initialized := over (sys_is_initialized c);
  sys_submit_unseal_key := fun k => over (sys_submit_unseal_key c k);
  sys_is_sealed := over (sys_is_sealed c);
  sys_enable_audit_device := fun t o => over (sys_enable_audit_device c t o);
  sys_enable_auth_method := fun t => over (sys_enable_auth_method c t);
  sys_enable_secrets_engine := fun t d p => over (sys_enable_secrets_engine c t d p);
  sys_take_raft_snapshot := over (sys_take_raft_snapshot c);
  sys_restore_raft_snapshot := fun b => over (sys_restore_raft_snapshot c b);
  sys_force_restore_raft_snapshot := fun b => over (sys_force_restore_raft_snapshot c b);
  sys_remove_raft_node := fun i => over (sys_remove_raft_node c i);
  sys_read_raft_config := over (sys_read_raft_config c);
  pki_read_ca_certificate := fun m => over (pki_read_ca_certificate c m);
  pki_sign_certificate := fun csr m cn r => over (pki_sign_certificate c csr m cn r);
  adapter_get := fun p => over (adapter_get c p)
|}.
End Link.
End Link.

(** Two states of the reference cluster used in the examples below: after
    [initialize(5, 3)], and after three of the five keys were submitted. *)
Definition sealed_cluster : Sim.Cluster :=
  Eval vm_compute in snd (Sim.initialize 5 3 Sim.fresh).

Definition serving_cluster : Sim.Cluster :=
  Eval vm_compute in
    snd (Sim.submit_unseal_key "unseal-key-4"
      (snd (Sim.submit_unseal_key "unseal-key-2"
        (snd (Sim.submit_unseal_key "unseal-key-1" sealed_cluster))))).


(** ** The rest of the client and of the module *)

(** The part of [hvac.Client] that the remaining methods call: the token
    attribute, [client.auth.approle], the policies of [client.sys] and the
    rest of [client.secrets.pki].  Keyword arguments come in the order of
    the source. *)
Record AdminClient (W : Type) : Type := mkAdminClient {
  (* client.token = ... : an attribute of the client, no request *)
  set_token : string -> W -> W;
  (* client.auth.approle *)
  approle_login : string -> string -> bool -> Call W value;
  approle_create_or_update_approle :
    string -> string -> string -> list string -> string -> list string -> Call W value;
  approle_read_role_id : string -> Call W value;
  approle_generate_secret_id : string -> list string -> Call W value;
  approle_read_secret_id : string -> string -> Call W value;
  (* client.secrets.pki *)
  pki_generate_intermediate : string -> string -> string -> Call W value;
  pki_set_signed_intermediate : string -> string -> Call W value;
  pki_create_or_update_role : string -> string -> value -> Call W value;
  pki_list_roles : string -> Call W value
}.

Arguments set_token {W} _ _ _.
Arguments approle_login {W} _ _ _ _ _.
Arguments approle_create_or_update_approle {W} _ _ _ _ _ _ _ _.
Arguments approle_read_role_id {W} _ _ _.
Arguments approle_generate_secret_id {W} _ _ _ _.
Arguments approle_read_secret_id {W} _ _ _ _.
Arguments pki_generate_intermediate {W} _ _ _ _ _.
Arguments pki_set_signed_intermediate {W} _ _ _ _.
Arguments pki_create_or_update_role {W} _ _ _ _ _.
Arguments pki_list_roles {W} _ _ _.

(** The two data classes a caller authenticates with,
    [Union[Token, AppRole]]. *)
Inductive AuthDetails : Set :=
  | Token (token : string)
  | AppRole (role_id secret_id : string).

(** [needle in hay] for two [str]: [needle] occurs in [hay]. *)
Fixpoint is_substring (needle hay : string) : bool :=
  String.prefix needle hay
  || match hay with
     | EmptyString => false
     | String _ rest => is_substring needle rest
     end.

(** [s in v] for a [str] [s]: an element equal to [s] in a list, a key in
    a dict, a substring in a string. *)
Definition contains (v : value) (s : string) : result bool :=
  match v with
  | VList l => Ok (existsb (fun x => eq_str x s) l)
  | VDict d => Ok (bool_decide (is_Some (d !! s)))
  | VStr t => Ok (is_substring s t)
  | VNone => Raise (Exn TypeError "argument of type 'NoneType' is not iterable")
  | VBool _ => Raise (Exn TypeError "argument of type 'bool' is not iterable")
  | VInt _ => Raise (Exn TypeError "argument of type 'int' is not iterable")
  end.

(** An assignment to an attribute of the client. *)
Definition assign {W} (f : W -> W) : M W unit :=
  fun st => (Ok tt, {| world := f (world st); log := log st |}).

Module VaultAdmin.
Section Methods.
Context {W : Type} (client : AdminClient W).

(** [Token.login] and [AppRole.login], chosen by the class of the
    argument. *)
Definition login (auth_details : AuthDetails) : M W unit :=
  match auth_details with
  | Token token => assign (set_token client token)
  | AppRole role_id secret_id =>
      _ <- call (approle_login client role_id secret_id true);;
      ret tt
  end.

(** [Vault.authenticate] *)
Definition authenticate (auth_details : AuthDetails) : M W unit :=
  login auth_details.

(** [Vault.configure_approle] *)
Definition configure_approle (role_name : string) (cidrs policies : list string)
    : M W value :=
  _ <- call (approle_create_or_update_approle client
               role_name "60s" "60s" policies "true" cidrs);;
  response <- call (approle_read_role_id client role_name);;
  data <- lift (getitem response "data");;
  lift (getitem data "role_id").

(** [Vault.generate_role_secret_id] *)
Definition generate_role_secret_id (name : string) (cidrs : list string) : M W value :=
  response <- call (approle_generate_secret_id client name cidrs);;
  data <- lift (getitem response "data");;
  lift (getitem data "secret_id").

(** [Vault.read_role_secret] *)
Definition read_role_secret (name id : string) : M W value :=
  response <- call (approle_read_secret_id client name id);;
  lift (getitem response "data").

(** [Vault.generate_pki_intermediate_ca_csr] *)
Definition generate_pki_intermediate_ca_csr (mount common_name : string) : M W value :=
  response <- call (pki_generate_intermediate client mount common_name "internal");;
  emit INFO "Generated a CSR for the intermediate CA for the PKI backend";;;
  data <- lift (getitem response "data");;
  lift (getitem data "csr").

(** [Vault.set_pki_intermediate_ca_certificate] *)
Definition set_pki_intermediate_ca_certificate (certificate mount : string) : M W unit :=
  _ <- call (pki_set_signed_intermediate client certificate mount);;
  emit INFO "Set the intermediate CA certificate for the PKI backend".

(** [Vault.create_pki_charm_role] *)
Definition create_pki_charm_role (role allowed_domains mount : string) : M W unit :=
  _ <- call (pki_create_or_update_role client role mount
               (VDict {[ "allowed_domains" := VStr allowed_domains;
                         "allow_subdomains" := VBool true ]}));;
  emit INFO "Created a role for the PKI backend".

(** [Vault.is_pki_role_created] *)
Definition is_pki_role_created (role mount : string) : M W bool :=
  try_except
    (existing_roles <- call (pki_list_roles client mount);;
     data <- lift (getitem existing_roles "data");;
     keys <- lift (getitem data "keys");;
     lift (contains keys role))
    [InvalidPath]
    (fun _ => ret false).
End Methods.
End VaultAdmin.

(** A test double for the two clients: every call is counted, and answers
    with the result fixed for its return type. *)
Module Mock.

Definition answer {A} (r : result A) : Call nat A := fun n => (r, S n).

Definition client (v : result value) (h : result Response) (b : result bool)
    (s : result string) : Client nat := {|
  sys_read_health_status := fun _ => answer h;
  sys_initialize := fun _ _ => answer v;
  sys_is_initialized := answer b;
  sys_submit_unseal_key := fun _ => answer v;
  sys_is_sealed := answer b;
  sys_enable_audit_device := fun _ _ => answer v;
  sys_enable_auth_method := fun _ => answer v;
  sys_enable_secrets_engine := fun _ _ _ => answer v;
  sys_take_raft_snapshot := answer h;
  sys_restore_raft_snapshot := fun _ => answer h;
  sys_force_restore_raft_snapshot := fun _ => answer h;
  sys_remove_raft_node := fun _ => answer v;
  sys_read_raft_config := answer v;
  pki_read_ca_certificate := fun _ => answer s;
  pki_sign_certificate := fun _ _ _ _ => answer v;
  adapter_get := fun _ => answer v
|}.

Definition admin (v : result value) : AdminClient nat := {|
  set_token := fun _ n => n;
  approle_login := fun _ _ _ => answer v;
  approle_create_or_update_approle := fun _ _ _ _ _ _ => answer v;
  approle_read_role_id := fun _ => answer v;
  approle_generate_secret_id := fun _ _ => answer v;
  approle_read_secret_id := fun _ _ => answer v;
  pki_generate_intermediate := fun _ _ _ => answer v;
  pki_set_signed_intermediate := fun _ _ => answer v;
  pki_create_or_update_role := fun _ _ _ => answer v;
  pki_list_roles := fun _ => answer v
|}.

(** A client that answers every call with the value [v]. *)
Definition returning (v : value) : Client nat :=
  client (Ok v) (Ok (mkResponse 200 "")) (Ok false) (Ok "").

(** A client on which every call raises [e]. *)
Definition raising (e : exn) : Client nat :=
  client (Raise e) (Raise e) (Raise e) (Raise e).
End Mock.

(** * Vocabulary of the properties *)

(** The state a method hands on when it leaves the cluster at [w]. *)
Definition at_world {W} (w : W) (st : state W) : state W :=
  {| world := w; log := log st |}.

(** The state after one more record on the logger. *)
Definition logged {W} (l : level) (text : string) (st : state W) : state W :=
  {| world := world st; log := log st ++ [LogRecord l text] |}.

(** The cluster accepts the keys, submitted one at a time in the order of
    the list, and is taken from the first state to the second. *)
Inductive accepted {W} (c : Client W) : list string -> W -> W -> Prop :=
  | accepted_nil w : accepted c [] w w
  | accepted_cons k ks w r w1 w2 :
      sys_submit_unseal_key c k w = (Ok r, w1) ->
      accepted c ks w1 w2 ->
      accepted c (k :: ks) w w2.

(** The loop of [unseal]. *)
Definition submit_all {W} (c : Client W) (unseal_keys : list string) : M W unit :=
  for_each unseal_keys
    (fun unseal_key =>
       _ <- call (sys_submit_unseal_key c unseal_key);;
       ret tt).

(** "Any other rejection is fatal and re-raised", read as it stands: a
    rejection met while the cluster is not confirmed unsealed is the error
    [unseal] raises. *)
Definition reraises_other_rejections {W} (c : Client W) : Prop :=
  forall ks1 k ks2 st w1 e w2,
    accepted c ks1 (world st) w1 ->
    sys_submit_unseal_key c k w1 = (Raise e, w2) ->
    (forall w3, sys_is_sealed c w2 <> (Ok false, w3)) ->
    exists st', Vault.unseal c (ks1 ++ k :: ks2) st = (Raise e, st').

(** A failure of the network or transport, and a failure on the side of
    the cluster: the two families the module imports. *)
Definition transport_failure (e : exn) : bool := isinstance e RequestException.
Definition cluster_failure (e : exn) : bool := isinstance e VaultError.

(** A rejection by the cluster, in the spec's taxonomy (7): an answer in
    the 4xx range, "path not found" among them. *)
Definition cluster_rejection (e : exn) : bool :=
  bool_decide (exn_cls e ∈ [InvalidRequest; Unauthorized; Forbidden; InvalidPath]).

(** A peer-configuration response lists exactly the node ids [ids], in
    order. *)
Definition reports (raft_config : value) (ids : list string) : Prop :=
  exists servers,
    Vault.raft_servers raft_config = Ok (VList servers)
    /\ Forall2 (fun server id => getitem server "node_id" = Ok (VStr id)) servers ids.

(** The resources a mount table holds at [path]; an entry of the table
    is a path and what is enabled there. *)
Definition enabled_at (path : string) (table : list (string * string)) : list string :=
  (filter (fun entry => entry.1 = path) table).*2.

(** ** What the spec states about the cluster

    The cluster is not code of the repository; each record below is the
    part of the spec's description of it that a property relies on,
    stated for a client [c] and the observations of its state that the
    description speaks of. *)

(** Modelled from the spec: the cluster's side of [initialize], which
    [hvac] and the server implement.  Lifecycle table (4.1): from
    [UNINITIALIZED] the call answers with the unseal material and the
    cluster is [SEALED]; on an initialized cluster it is rejected and
    nothing changes. *)
Record Lifecycle {W} (c : Client W) (phase : W -> Phase)
    (secret_shares secret_threshold : Z) (AlreadyInitialized : exn) : Prop := {
  initialize_fresh : forall w,
    phase w = UNINITIALIZED ->
    exists response root_token keys w',
      sys_initialize c secret_shares secret_threshold w = (Ok response, w')
      /\ getitem response "root_token" = Ok root_token
      /\ getitem response "keys" = Ok keys
      /\ phase w' = SEALED;
  initialize_again : forall w,
    phase w <> UNINITIALIZED ->
    sys_initialize c secret_shares secret_threshold w = (Raise AlreadyInitialized, w)
}.

(** Modelled from the spec: the cluster's side of the raft calls.
    Membership (3, 4.1): a read reports the current peers and changes
    nothing; a removal is reflected in the next read, and removing an id
    that is no peer is a success like any other. *)
Record Membership {W} (c : Client W) (peers : W -> list string) : Prop := {
  read_peers : forall w,
    exists raft_config,
      sys_read_raft_config c w = (Ok raft_config, w)
      /\ reports raft_config (peers w);
  remove_peer : forall node_id w,
    exists r w',
      sys_remove_raft_node c node_id w = (Ok r, w')
      /\ peers w' = filter (fun p => p <> node_id) (peers w)
}.

(** Modelled from the spec: the cluster's side of the three enabling
    calls.  Enabling (3, 4.3): a resource is enabled at a free path; a
    path in use is rejected with [InvalidRequest] and nothing changes.
    An audit device is mounted at its device type and an auth method at
    its method type, the paths the client defaults to; the tables hold,
    by path, the file an audit device writes to, the type of an auth
    method and the type of a secrets backend. *)
Record Enabling {W} (c : Client W) (audit auths mounts : W -> list (string * string))
    : Prop := {
  audit_free : forall device_type options w,
    device_type ∉ (audit w).*1 ->
    exists r w',
      sys_enable_audit_device c device_type options w = (Ok r, w')
      /\ audit w' = (audit w ++ [(device_type, default "" (options !! "file_path"))])%list;
  audit_in_use : forall device_type options w,
    device_type ∈ (audit w).*1 ->
    exists e,
      sys_enable_audit_device c device_type options w = (Raise e, w)
      /\ isinstance e InvalidRequest = true;
  auth_free : forall method_type w,
    method_type ∉ (auths w).*1 ->
    exists r w',
      sys_enable_auth_method c method_type w = (Ok r, w')
      /\ auths w' = (auths w ++ [(method_type, method_type)])%list;
  auth_in_use : forall method_type w,
    method_type ∈ (auths w).*1 ->
    exists e,
      sys_enable_auth_method c method_type w = (Raise e, w)
      /\ isinstance e InvalidRequest = true;
  mount_free : forall backend_type description path w,
    path ∉ (mounts w).*1 ->
    exists r w',
      sys_enable_secrets_engine c backend_type description path w = (Ok r, w')
      /\ mounts w' = (mounts w ++ [(path, backend_type)])%list;
  mount_in_use : forall backend_type description path w,
    path ∈ (mounts w).*1 ->
    exists e,
      sys_enable_secrets_engine c backend_type description path w = (Raise e, w)
      /\ isinstance e InvalidRequest = true
}.

(** Modelled from the spec: the cluster's side of the snapshot calls.
    Snapshots (4.1): a snapshot is sealed with the unseal key in force
    when it is taken; the plain restore refuses a snapshot sealed with
    another key than the current one, the forced restore accepts it. *)
Record Snapshots {W} (c : Client W) (seal_key : W -> string)
    (sealed_with : string -> option string) : Prop := {
  take_snapshot : forall w,
    exists response,
      sys_take_raft_snapshot c w = (Ok response, w)
      /\ sealed_with (content response) = Some (seal_key w);
  plain_restore : forall snapshot k w,
    sealed_with snapshot = Some k -> k <> seal_key w ->
    exists e w', sys_restore_raft_snapshot c snapshot w = (Raise e, w');
  forced_restore : forall snapshot k w,
    sealed_with snapshot = Some k ->
    exists response w', sys_force_restore_raft_snapshot c snapshot w = (Ok response, w')
}.

(** * Properties *)

(** ** Running a method *)

Section Run.
Context {W : Type}.
Implicit Types (st : state W) (w : W).

Lemma at_world_id st : at_world (world st) st = st.
Proof. by destruct st. Qed.

Lemma bind_ok {A B} (m : M W A) (k : A -> M W B) st a st' :
  m st = (Ok a, st') -> bind m k st = k a st'.
Proof. unfold bind. by intros ->. Qed.

Lemma bind_raise {A B} (m : M W A) (k : A -> M W B) st e st' :
  m st = (Raise e, st') -> bind m k st = (Raise e, st').
Proof. unfold bind. by intros ->. Qed.

Lemma call_run {A} (c : Call W A) st r w' :
  c (world st) = (r, w') -> call c st = (r, at_world w' st).
Proof. unfold call. by intros ->. Qed.

Lemma try_ok {A} (m : M W A) clss h st a st' :
  m st = (Ok a, st') -> try_except m clss h st = (Ok a, st').
Proof. unfold try_except. by intros ->. Qed.

Lemma try_caught {A} (m : M W A) clss h st e st' :
  m st = (Raise e, st') -> isinstance_any e clss = true ->
  try_except m clss h st = h e st'.
Proof. unfold try_except. by intros -> ->. Qed.

Lemma try_passed {A} (m : M W A) clss h st e st' :
  m st = (Raise e, st') -> isinstance_any e clss = false ->
  try_except m clss h st = (Raise e, st').
Proof. unfold try_except. by intros -> ->. Qed.
End Run.

Lemma isinstance_any_one e cls : isinstance_any e [cls] = isinstance e cls.
Proof. unfold isinstance_any. simpl. by rewrite orb_false_r. Qed.

Lemma isinstance_any_failure e :
  isinstance_any e [VaultError; RequestException]
  = cluster_failure e || transport_failure e.
Proof.
  unfold isinstance_any, cluster_failure, transport_failure. simpl.
  by rewrite orb_false_r.
Qed.

(** ** [unseal] *)

Section Unseal.
Context {W : Type} (c : Client W).

Lemma submit_all_accepted ks : forall st w',
  accepted c ks (world st) w' -> submit_all c ks st = (Ok tt, at_world w' st).
Proof.
  induction ks as [|k ks IH]; intros st w' Hacc; inversion Hacc; subst.
  - by rewrite at_world_id.
  - match goal with H : sys_submit_unseal_key _ _ _ = _ |- _ =>
      apply (call_run _ st) in H; rename H into Hk end.
    unfold submit_all. simpl.
    rewrite (bind_ok _ _ st tt (at_world w1 st)).
    + by apply (IH (at_world w1 st)).
    + by rewrite (bind_ok _ _ _ _ _ Hk).
Qed.

Lemma submit_all_rejected ks1 : forall k ks2 st w1 e w2,
  accepted c ks1 (world st) w1 ->
  sys_submit_unseal_key c k w1 = (Raise e, w2) ->
  submit_all c (ks1 ++ k :: ks2) st = (Raise e, at_world w2 st).
Proof.
  induction ks1 as [|k1 ks1 IH]; intros k ks2 st w1 e w2 Hacc Hrej;
    inversion Hacc; subst.
  - apply (call_run _ st) in Hrej.
    unfold submit_all. simpl.
    apply bind_raise. by apply bind_raise.
  - match goal with H : sys_submit_unseal_key _ k1 _ = _ |- _ =>
      apply (call_run _ st) in H; rename H into Hk end.
    unfold submit_all. simpl.
    rewrite (bind_ok _ _ st tt (at_world w0 st)).
    + by apply (IH k ks2 (at_world w0 st) w1).
    + by rewrite (bind_ok _ _ _ _ _ Hk).
Qed.

(** Every run of the loop is of one of the two kinds. *)
Lemma accepted_or_rejected ks : forall w,
  (exists w', accepted c ks w w')
  \/ (exists ks1 k ks2 w1 e w2,
        ks = (ks1 ++ k :: ks2)%list /\ accepted c ks1 w w1
        /\ sys_submit_unseal_key c k w1 = (Raise e, w2)).
Proof.
  induction ks as [|k ks IH]; intros w.
  - left. exists w. constructor.
  - destruct (sys_submit_unseal_key c k w) as [[r|e] w1] eqn:Hk.
    + destruct (IH w1) as [[w' Hacc]|(ks1 & k' & ks2 & w1' & e & w2 & -> & Hacc & Hrej)].
      * left. exists w'. by econstructor.
      * right. exists (k :: ks1), k', ks2, w1', e, w2.
        split; [done|]. split; [by econstructor|done].
    + right. exists [], k, ks, w, e, w1. split; [done|]. split; [constructor|done].
Qed.
End Unseal.

(** C1 (as amended).  [unseal(keys)] submits the keys one at a time in the
    order of the list.  When the cluster accepts them all, [unseal] logs
    and returns.  At the first key the cluster rejects, no further key is
    submitted and:
    - a rejection that is not an [InvalidRequest] propagates, and the seal
      status is not queried;
    - for an [InvalidRequest], the seal status is queried once: if it
      reports not sealed the rejection is swallowed and [unseal] returns
      normally, if it reports sealed the rejection is raised again, and if
      the query itself fails then the error of the query is raised, not
      the rejection. *)
Theorem unseal_outcome {W} (c : Client W) (ks : list string) (st : state W) :
  (forall w',
     accepted c ks (world st) w' ->
     Vault.unseal c ks st = (Ok tt, logged INFO "Vault is unsealed" (at_world w' st)))
  /\ (forall ks1 k ks2 w1 e w2,
        ks = (ks1 ++ k :: ks2)%list ->
        accepted c ks1 (world st) w1 ->
        sys_submit_unseal_key c k w1 = (Raise e, w2) ->
        Vault.unseal c ks st =
          if isinstance e InvalidRequest then
            match sys_is_sealed c w2 with
            | (Ok false, w3) => (Ok tt, at_world w3 st)
            | (Ok true, w3) => (Raise e, at_world w3 st)
            | (Raise e', w3) => (Raise e', at_world w3 st)
            end
          else (Raise e, at_world w2 st)).
Proof.
  split.
  - intros w' Hacc. unfold Vault.unseal.
    apply try_ok. fold (submit_all c ks).
    by rewrite (bind_ok _ _ _ _ _ (submit_all_accepted c ks st w' Hacc)).
  - intros ks1 k ks2 w1 e w2 -> Hacc Hrej.
    pose proof (submit_all_rejected c ks1 k ks2 st w1 e w2 Hacc Hrej) as Hloop.
    unfold Vault.unseal. fold (submit_all c (ks1 ++ k :: ks2)).
    destruct (isinstance e InvalidRequest) eqn:Hcls.
    + rewrite (try_caught _ _ _ _ e (at_world w2 st)).
      * unfold bind, call. simpl.
        by destruct (sys_is_sealed c w2) as [[[|]|e'] w3].
      * by apply bind_raise.
      * by rewrite isinstance_any_one.
    + apply try_passed.
      * by apply bind_raise.
      * by rewrite isinstance_any_one.
Qed.

(** At the fourth of five keys the cluster, unsealed by the first three,
    rejects a string that is no key; the status query reports not sealed
    and [unseal] returns, the fifth key never submitted. *)
Lemma unseal_outcome_witness :
  Vault.unseal Sim.client
    ["unseal-key-1"; "unseal-key-2"; "unseal-key-4"; "bogus"; "unseal-key-5"]
    (mkState sealed_cluster [])
  = (Ok tt, mkState serving_cluster []).
Proof.
  refine (proj2 (unseal_outcome Sim.client _ (mkState sealed_cluster []))
            ["unseal-key-1"; "unseal-key-2"; "unseal-key-4"] "bogus" ["unseal-key-5"]
            serving_cluster (Sim.rejection "invalid unseal key") serving_cluster
            eq_refl _ eq_refl).
  repeat (eapply accepted_cons; [vm_compute; reflexivity|]).
  apply accepted_nil.
Defined.

(** C1, as the spec words it, fails where the status query fails.  The
    link carries one more request: the cluster, sealed, rejects the key;
    the status query then finds the link down, the cluster is not
    confirmed unsealed, and what [unseal] raises is the connection error,
    not the rejection. *)
Lemma unseal_rejection_replaced :
  let c := Link.unreliable Sim.client in
  let st := mkState (sealed_cluster, 1%nat) [] in
  let rejected := Sim.rejection "invalid unseal key" in
  sys_submit_unseal_key c "bogus" (world st) = (Raise rejected, (sealed_cluster, 0%nat))
  /\ isinstance rejected InvalidRequest = true
  /\ sys_is_sealed c (sealed_cluster, 0%nat) = (Raise Link.down, (sealed_cluster, 0%nat))
  /\ Vault.unseal c ["bogus"] st = (Raise Link.down, mkState (sealed_cluster, 0%nat) [])
  /\ Link.down <> rejected
  /\ ~ reraises_other_rejections c.
Proof.
  split_and!; [reflexivity..|discriminate|].
  intros Hclaim.
  destruct (Hclaim [] "bogus" [] (mkState (sealed_cluster, 1%nat) [])
              (sealed_cluster, 1%nat) (Sim.rejection "invalid unseal key")
              (sealed_cluster, 0%nat)) as [st' Hst'].
  - apply accepted_nil.
  - reflexivity.
  - discriminate.
  - discriminate Hst'.
Qed.

(** ** The health predicates and the raft health query *)

(** C3.  [is_raft_cluster_healthy] reads the autopilot state at
    [RAFT_STATE_ENDPOINT] and returns the [healthy] field of the [data]
    envelope of the response; when the query fails, the error reaches the
    caller as it is.  [is_active] on the contrary answers [False] when its
    query fails on the side of the cluster or of the transport. *)
Theorem is_raft_cluster_healthy_projects {W} (c : Client W) (st : state W) :
  (forall response w' data healthy,
     adapter_get c RAFT_STATE_ENDPOINT (world st) = (Ok response, w') ->
     getitem response "data" = Ok data ->
     getitem data "healthy" = Ok healthy ->
     Vault.is_raft_cluster_healthy c st = (Ok healthy, at_world w' st))
  /\ (forall e w',
        adapter_get c RAFT_STATE_ENDPOINT (world st) = (Raise e, w') ->
        Vault.is_raft_cluster_healthy c st = (Raise e, at_world w' st))
  /\ (forall e w',
        sys_read_health_status c true (world st) = (Raise e, w') ->
        cluster_failure e || transport_failure e = true ->
        exists st', Vault.is_active c st = (Ok false, st')).
Proof.
  split; [|split].
  - intros response w' data healthy Hget Hdata Hhealthy.
    unfold Vault.is_raft_cluster_healthy, Vault.get_raft_cluster_state.
    rewrite (bind_ok _ _ st data (at_world w' st)).
    + unfold lift. by rewrite Hhealthy.
    + rewrite (bind_ok _ _ _ _ _ (call_run _ st _ _ Hget)).
      unfold lift. by rewrite Hdata.
  - intros e w' Hget.
    unfold Vault.is_raft_cluster_healthy, Vault.get_raft_cluster_state.
    apply bind_raise, bind_raise. by apply call_run.
  - intros e w' Hq Hfail. eexists.
    unfold Vault.is_active.
    rewrite (try_caught _ _ _ _ e (at_world w' st)).
    + reflexivity.
    + apply bind_raise. by apply call_run.
    + by rewrite isinstance_any_failure.
Qed.

(** The reference cluster reports its health; over a link that is down
    the query raises and so does the method. *)
Lemma is_raft_cluster_healthy_projects_witness :
  Vault.is_raft_cluster_healthy Sim.client (mkState serving_cluster [])
    = (Ok (VBool true), mkState serving_cluster [])
  /\ Vault.is_raft_cluster_healthy (Link.unreliable Sim.client)
       (mkState (serving_cluster, 0%nat) [])
     = (Raise Link.down, mkState (serving_cluster, 0%nat) [])
  /\ exists st', Vault.is_active (Link.unreliable Sim.client)
                   (mkState (serving_cluster, 0%nat) []) = (Ok false, st').
Proof.
  split; [|split].
  - exact (proj1 (is_raft_cluster_healthy_projects Sim.client (mkState serving_cluster []))
             _ serving_cluster _ (VBool true) eq_refl eq_refl eq_refl).
  - exact (proj1 (proj2 (is_raft_cluster_healthy_projects (Link.unreliable Sim.client)
                           (mkState (serving_cluster, 0%nat) [])))
             Link.down (serving_cluster, 0%nat) eq_refl).
  - exact (proj2 (proj2 (is_raft_cluster_healthy_projects (Link.unreliable Sim.client)
                           (mkState (serving_cluster, 0%nat) [])))
             Link.down (serving_cluster, 0%nat) eq_refl eq_refl).
Defined.

(** C7 (as amended).  [is_api_available] and [is_active] make one health
    query, with [standby_ok=True].  When it answers, [is_api_available]
    is [True] and [is_active] is [True] exactly when the status code of
    the answer is 200, whatever the node is.  When it fails with a
    [VaultError] (the side of the cluster) or a [RequestException] (the
    network), both log the error and return [False]; an error of any
    other class is raised to the caller with nothing logged. *)
Theorem health_predicates_outcome {W} (c : Client W) (st : state W) :
  (forall response w',
     sys_read_health_status c true (world st) = (Ok response, w') ->
     Vault.is_api_available c st = (Ok true, at_world w' st)
     /\ exists active,
          Vault.is_active c st = (Ok active, at_world w' st)
          /\ (active = true <-> status_code response = 200%Z))
  /\ (forall e w',
        sys_read_health_status c true (world st) = (Raise e, w') ->
        let outcome :=
          if cluster_failure e || transport_failure e
          then (Ok false,
                logged ERROR ("Error while checking Vault health status: " ++ exn_msg e)
                  (at_world w' st))
          else (Raise e, at_world w' st) in
        Vault.is_api_available c st = outcome
        /\ Vault.is_active c st = outcome).
Proof.
  split.
  - intros response w' Hq. apply (call_run _ st) in Hq. split.
    + unfold Vault.is_api_available. apply try_ok.
      by rewrite (bind_ok _ _ _ _ _ Hq).
    + exists (Z.eqb (status_code response) 200). split.
      * unfold Vault.is_active. apply try_ok.
        by rewrite (bind_ok _ _ _ _ _ Hq).
      * apply Z.eqb_eq.
  - intros e w' Hq outcome. apply (call_run _ st) in Hq. subst outcome.
    rewrite <- isinstance_any_failure.
    destruct (isinstance_any e [VaultError; RequestException]) eqn:Hfamily.
    + split.
      * unfold Vault.is_api_available.
        rewrite (try_caught _ _ _ _ e (at_world w' st)); [done| |done].
        by apply bind_raise.
      * unfold Vault.is_active.
        rewrite (try_caught _ _ _ _ e (at_world w' st)); [done| |done].
        by apply bind_raise.
    + split.
      * unfold Vault.is_api_available. apply try_passed; [by apply bind_raise|done].
      * unfold Vault.is_active. apply try_passed; [by apply bind_raise|done].
Qed.

(** An active node answers 200 and is active; a sealed one answers 503,
    it is available and not active; behind a dead link both predicates
    are [False], the error logged; an error of another class is raised. *)
Lemma health_predicates_outcome_witness :
  Vault.is_api_available Sim.client (mkState serving_cluster [])
    = (Ok true, mkState serving_cluster [])
  /\ Vault.is_active Sim.client (mkState serving_cluster [])
     = (Ok true, mkState serving_cluster [])
  /\ Vault.is_api_available Sim.client (mkState sealed_cluster [])
     = (Ok true, mkState sealed_cluster [])
  /\ Vault.is_active Sim.client (mkState sealed_cluster [])
     = (Ok false, mkState sealed_cluster [])
  /\ Vault.is_active (Link.unreliable Sim.client) (mkState (sealed_cluster, 0%nat) [])
     = (Ok false,
        mkState (sealed_cluster, 0%nat)
          [LogRecord ERROR "Error while checking Vault health status: Connection refused"])
  /\ Vault.is_active (Mock.raising (Exn TypeError "an integer is required"))
       (mkState 0%nat [])
     = (Raise (Exn TypeError "an integer is required"), mkState 1%nat []).
Proof.
  destruct (proj1 (health_predicates_outcome Sim.client (mkState serving_cluster []))
              (mkResponse 200 "") serving_cluster eq_refl)
    as (Havailable & active & Hactive & Hcode).
  destruct (proj1 (health_predicates_outcome Sim.client (mkState sealed_cluster []))
              (mkResponse 503 "") sealed_cluster eq_refl)
    as (Havailable' & active' & Hactive' & Hcode').
  pose proof (proj2 (health_predicates_outcome (Link.unreliable Sim.client)
                       (mkState (sealed_cluster, 0%nat) []))
                Link.down (sealed_cluster, 0%nat) eq_refl) as [_ Hdown].
  pose proof (proj2 (health_predicates_outcome
                       (Mock.raising (Exn TypeError "an integer is required"))
                       (mkState 0%nat []))
                (Exn TypeError "an integer is required") 1%nat eq_refl) as [_ Hother].
  split; [exact Havailable|].
  split.
  { rewrite Hactive. do 2 f_equal. by apply Hcode. }
  split; [exact Havailable'|].
  split.
  { rewrite Hactive'. do 2 f_equal.
    destruct active'; [|done]. by destruct (proj1 Hcode' eq_refl). }
  split; [exact Hdown|exact Hother].
Defined.

(** C7, as the spec words it, fails twice.  "Never propagate an error":
    an error of the health query that is neither a [VaultError] nor a
    [RequestException] leaves both predicates.  "Standby counts as
    active": [standby_ok=True] is handed to the client, and the answer is
    [True] only for the status code 200; the standby node of the
    reference cluster, whose client drops the parameter, answers 429 and
    [is_active] is [False]. *)
Lemma health_predicates_raise_and_standby :
  let other := Exn TypeError "an integer is required" in
  let standby := Sim.set_phase UNSEALED_STANDBY serving_cluster in
  Vault.is_api_available (Mock.raising other) (mkState 0%nat [])
    = (Raise other, mkState 1%nat [])
  /\ Vault.is_active (Mock.raising other) (mkState 0%nat [])
     = (Raise other, mkState 1%nat [])
  /\ sys_read_health_status Sim.client true standby = (Ok (mkResponse 429 ""), standby)
  /\ Vault.is_active Sim.client (mkState standby []) = (Ok false, mkState standby []).
Proof. split_and!; reflexivity. Qed.

(** ** PKI *)

(** C8 (as amended).  When the signing call raises an [InvalidRequest],
    the error of a request the cluster rejects as such (a CSR outside the
    constraints of the role), [sign_pki_certificate_signing_request] logs
    a warning and returns [None]: nothing is raised.  An error of any
    other class, a rejection such as [InvalidPath] or [Forbidden]
    included, reaches the caller.  When the request succeeds the method
    returns a [Certificate] whose [certificate], [ca] and [chain] are the
    [certificate], [issuing_ca] and [ca_chain] fields of the [data]
    envelope of the response. *)
Theorem sign_returns_certificate_or_none {W} (c : Client W)
    (mount role csr common_name : string) (st : state W) :
  (forall e w',
     pki_sign_certificate c csr mount common_name role (world st) = (Raise e, w') ->
     Vault.sign_pki_certificate_signing_request c mount role csr common_name st
     = if isinstance e InvalidRequest
       then (Ok None,
             logged WARNING ("Error while signing PKI certificate: " ++ exn_msg e)
               (at_world w' st))
       else (Raise e, at_world w' st))
  /\ (forall response w' data cert issuing_ca ca_chain,
        pki_sign_certificate c csr mount common_name role (world st) = (Ok response, w') ->
        getitem response "data" = Ok data ->
        getitem data "certificate" = Ok cert ->
        getitem data "issuing_ca" = Ok issuing_ca ->
        getitem data "ca_chain" = Ok ca_chain ->
        Vault.sign_pki_certificate_signing_request c mount role csr common_name st
        = (Ok (Some {| certificate := cert; ca := issuing_ca; chain := ca_chain |}),
           logged INFO ("Signed a PKI certificate for " ++ common_name)
             (at_world w' st))).
Proof.
  split.
  - intros e w' Hsign. apply (call_run _ st) in Hsign.
    unfold Vault.sign_pki_certificate_signing_request.
    destruct (isinstance e InvalidRequest) eqn:Hcls.
    + rewrite (try_caught _ _ _ _ e (at_world w' st)); [done| |].
      * by apply bind_raise.
      * by rewrite isinstance_any_one.
    + apply try_passed; [by apply bind_raise|by rewrite isinstance_any_one].
  - intros response w' data cert issuing_ca ca_chain Hsign Hdata Hcert Hca Hchain.
    apply (call_run _ st) in Hsign.
    unfold Vault.sign_pki_certificate_signing_request.
    apply try_ok.
    rewrite (bind_ok _ _ _ _ _ Hsign).
    unfold bind, emit, lift, ret. simpl.
    by rewrite Hdata, Hcert, Hca, Hchain.
Qed.

(** The role of the reference cluster signs for [vault.local] and its
    subdomains: a common name under another domain yields [None], one
    under the domain yields the certificate of the response. *)
Lemma sign_returns_certificate_or_none_witness :
  Vault.sign_pki_certificate_signing_request Sim.client
    "charm-pki" "charm" "CSR" "unit.example.com" (mkState serving_cluster [])
  = (Ok None,
     mkState serving_cluster
       [LogRecord WARNING
          "Error while signing PKI certificate: common name unit.example.com not allowed by this role"])
  /\ Vault.sign_pki_certificate_signing_request Sim.client
       "charm-pki" "charm" "CSR" "unit.vault.local" (mkState serving_cluster [])
     = (Ok (Some {| certificate := VStr "signed:CSR";
                    ca := VStr "-----BEGIN CERTIFICATE-----";
                    chain := VList [VStr "-----BEGIN CERTIFICATE-----"] |}),
        mkState serving_cluster
          [LogRecord INFO "Signed a PKI certificate for unit.vault.local"]).
Proof.
  split.
  - exact (proj1 (sign_returns_certificate_or_none Sim.client
                    "charm-pki" "charm" "CSR" "unit.example.com" (mkState serving_cluster []))
             (Sim.rejection "common name unit.example.com not allowed by this role")
             serving_cluster eq_refl).
  - exact (proj2 (sign_returns_certificate_or_none Sim.client
                    "charm-pki" "charm" "CSR" "unit.vault.local" (mkState serving_cluster []))
             _ serving_cluster _ (VStr "signed:CSR") (VStr "-----BEGIN CERTIFICATE-----")
             (VList [VStr "-----BEGIN CERTIFICATE-----"])
             eq_refl eq_refl eq_refl eq_refl eq_refl).
Defined.

(** C8, as the spec words it, fails for a rejection that is no
    [InvalidRequest].  No PKI engine is mounted at [no-such-mount]: the
    cluster rejects the signing request with "path not found", and the
    method raises that error instead of returning [None]. *)
Lemma sign_rejection_raised :
  let not_found := Exn InvalidPath "no handler for route no-such-mount/sign/charm" in
  pki_sign_certificate Sim.client "CSR" "no-such-mount" "unit.vault.local" "charm"
    serving_cluster
  = (Raise not_found, serving_cluster)
  /\ cluster_rejection not_found = true
  /\ Vault.sign_pki_certificate_signing_request Sim.client
       "no-such-mount" "charm" "CSR" "unit.vault.local" (mkState serving_cluster [])
     = (Raise not_found, mkState serving_cluster []).
Proof. split_and!; reflexivity. Qed.

(** C10.  [is_intermediate_ca_set] and [is_pki_ca_certificate_set] are
    the same function of the mount, the certificate and the behaviour of
    the client: both read the CA certificate at the mount and return
    whether it equals the one supplied, and both let the error of the
    read through. *)
Theorem ca_set_predicates_agree {W} (c : Client W) (mount cert : string) (st : state W) :
  Vault.is_intermediate_ca_set c mount cert st = Vault.is_pki_ca_certificate_set c mount cert st
  /\ Vault.is_pki_ca_certificate_set c mount cert st
     = match pki_read_ca_certificate c mount (world st) with
       | (Ok existing, w') => (Ok (bool_decide (existing = cert)), at_world w' st)
       | (Raise e, w') => (Raise e, at_world w' st)
       end.
Proof.
  split; [reflexivity|].
  unfold Vault.is_pki_ca_certificate_set, bind, call, ret.
  by destruct (pki_read_ca_certificate c mount (world st)) as [[existing|e] w'].
Qed.

(** ** The reference cluster obeys the spec *)

Lemma Sim_lifecycle (secret_shares secret_threshold : Z) :
  (1 <= secret_threshold <= secret_shares)%Z ->
  Lifecycle Sim.client Sim.phase secret_shares secret_threshold Sim.AlreadyInitialized.
Proof.
  intros Hvalid. split; intros w Hphase; simpl; unfold Sim.initialize.
  - rewrite Hphase, (bool_decide_eq_true_2 _ Hvalid).
    eexists _, _, _, _. split_and!; reflexivity.
  - by destruct (Sim.phase w).
Qed.

Lemma Sim_reports ids :
  Forall2 (fun server id => getitem server "node_id" = Ok (VStr id))
    (Sim.server_entry <$> ids) ids.
Proof. induction ids; constructor; [reflexivity|done]. Qed.

Lemma Sim_membership : Membership Sim.client Sim.peers.
Proof.
  split.
  - intros w. exists (Sim.raft_config w). split; [reflexivity|].
    exists (Sim.server_entry <$> Sim.peers w). split; [reflexivity|apply Sim_reports].
  - intros node_id w. by eexists _, _.
Qed.

Lemma Sim_enable_free table path v :
  path ∉ table.*1 -> Sim.enable_at table path v = Ok (table ++ [(path, v)])%list.
Proof.
  intros Hfree. unfold Sim.enable_at. by rewrite (bool_decide_eq_false_2 _ Hfree).
Qed.

Lemma Sim_enable_in_use table path v :
  path ∈ table.*1 ->
  exists e, Sim.enable_at table path v = Raise e /\ isinstance e InvalidRequest = true.
Proof.
  intros Hused. unfold Sim.enable_at. rewrite (bool_decide_eq_true_2 _ Hused).
  by eexists.
Qed.

Lemma Sim_enabling : Enabling Sim.client Sim.audit Sim.auths Sim.mounts.
Proof.
  split; simpl.
  - intros device_type options w Hfree. unfold Sim.enable_audit_device.
    rewrite (Sim_enable_free _ _ (default "" (options !! "file_path")) Hfree).
    by eexists _, _.
  - intros device_type options w Hused. unfold Sim.enable_audit_device.
    destruct (Sim_enable_in_use _ _ (default "" (options !! "file_path")) Hused)
      as (e & -> & He).
    by exists e.
  - intros method_type w Hfree. unfold Sim.enable_auth_method.
    rewrite (Sim_enable_free _ _ method_type Hfree).
    by eexists _, _.
  - intros method_type w Hused. unfold Sim.enable_auth_method.
    destruct (Sim_enable_in_use _ _ method_type Hused) as (e & -> & He).
    by exists e.
  - intros backend_type description path w Hfree. unfold Sim.enable_secrets_engine.
    rewrite (Sim_enable_free _ _ backend_type Hfree).
    by eexists _, _.
  - intros backend_type description path w Hused. unfold Sim.enable_secrets_engine.
    destruct (Sim_enable_in_use _ _ backend_type Hused) as (e & -> & He).
    by exists e.
Qed.

Lemma substring_all (s : string) : String.substring 0 (String.length s) s = s.
Proof. induction s as [|a s IH]; simpl; [done|by rewrite IH]. Qed.

Lemma Sim_snapshot_key w : Sim.snapshot_key (Sim.snapshot_of w) = Some (Sim.seal_key w).
Proof.
  unfold Sim.snapshot_key, Sim.snapshot_of. simpl.
  change ("" +:+ Sim.seal_key w) with (Sim.seal_key w).
  replace (String.prefix "" (Sim.seal_key w)) with true
    by (by destruct (Sim.seal_key w)).
  by rewrite Nat.sub_0_r, substring_all.
Qed.

Lemma Sim_snapshots : Snapshots Sim.client Sim.seal_key Sim.snapshot_key.
Proof.
  split; simpl.
  - intros w. eexists. split; [reflexivity|]. apply Sim_snapshot_key.
  - intros snapshot k w Hk Hother. unfold Sim.restore_raft_snapshot.
    rewrite Hk, (bool_decide_eq_false_2 _ Hother). by eexists _, _.
  - intros snapshot k w Hk. unfold Sim.force_restore_raft_snapshot.
    rewrite Hk. by eexists _, _.
Qed.

(** ** [initialize] *)

(** C2.  On a cluster that obeys the lifecycle table: [initialize] on an
    [UNINITIALIZED] cluster returns the root token and the unseal keys of
    the cluster's answer and leaves the cluster [SEALED]; calling it again
    there, or on any initialized cluster, raises the cluster's
    [AlreadyInitialized] and changes neither the cluster nor the log. *)
Theorem initialize_once {W} (c : Client W) (phase : W -> Phase)
    (secret_shares secret_threshold : Z) (AlreadyInitialized : exn) :
  Lifecycle c phase secret_shares secret_threshold AlreadyInitialized ->
  (forall st,
     phase (world st) = UNINITIALIZED ->
     exists response root_token keys st1,
       sys_initialize c secret_shares secret_threshold (world st) = (Ok response, world st1)
       /\ getitem response "root_token" = Ok root_token
       /\ getitem response "keys" = Ok keys
       /\ Vault.initialize c secret_shares secret_threshold st = (Ok (root_token, keys), st1)
       /\ phase (world st1) = SEALED
       /\ Vault.initialize c secret_shares secret_threshold st1
          = (Raise AlreadyInitialized, st1))
  /\ (forall st,
        phase (world st) <> UNINITIALIZED ->
        Vault.initialize c secret_shares secret_threshold st = (Raise AlreadyInitialized, st)).
Proof.
  intros [Hfresh Hagain].
  assert (forall st, phase (world st) <> UNINITIALIZED ->
            Vault.initialize c secret_shares secret_threshold st
            = (Raise AlreadyInitialized, st)) as Hsecond.
  { intros st Hphase. unfold Vault.initialize.
    rewrite <- (at_world_id st) at 2.
    apply bind_raise, call_run. by apply Hagain. }
  split; [|done].
  intros st Hphase.
  destruct (Hfresh (world st) Hphase)
    as (response & root_token & keys & w' & Hinit & Htoken & Hkeys & Hsealed).
  exists response, root_token, keys,
    (logged INFO "Vault is initialized" (at_world w' st)).
  split_and!; try done.
  - unfold Vault.initialize.
    rewrite (bind_ok _ _ _ _ _ (call_run _ st _ _ Hinit)).
    unfold bind, emit, lift, ret. simpl. by rewrite Htoken, Hkeys.
  - apply Hsecond. simpl. by rewrite Hsealed.
Qed.

(** The reference cluster, initialized with five shares and threshold
    three and then once more. *)
Lemma initialize_once_witness :
  exists response root_token keys st1,
    sys_initialize Sim.client 5 3 Sim.fresh = (Ok response, world st1)
    /\ getitem response "root_token" = Ok root_token
    /\ getitem response "keys" = Ok keys
    /\ Vault.initialize Sim.client 5 3 (mkState Sim.fresh []) = (Ok (root_token, keys), st1)
    /\ Sim.phase (world st1) = SEALED
    /\ Vault.initialize Sim.client 5 3 st1 = (Raise Sim.AlreadyInitialized, st1).
Proof.
  apply (proj1 (initialize_once Sim.client Sim.phase 5 3 Sim.AlreadyInitialized
                  (Sim_lifecycle 5 3 ltac:(lia)))
           (mkState Sim.fresh [])).
  reflexivity.
Defined.

(** ** Raft peers *)

Section Peers.
Context {W : Type} (c : Client W) (peers : W -> list string).
Hypothesis obeys : Membership c peers.

Lemma scan_peers_member servers ids node_id (st : state W) :
  Forall2 (fun server id => getitem server "node_id" = Ok (VStr id)) servers ids ->
  Vault.scan_peers servers node_id st = (Ok (bool_decide (node_id ∈ ids)), st).
Proof.
  induction 1 as [|server id servers ids Hid _ IH]; [reflexivity|].
  cbn [Vault.scan_peers]. unfold bind, lift. rewrite Hid. cbn [eq_str].
  destruct (decide (id = node_id)) as [->|Hne].
  - rewrite bool_decide_eq_true_2 by done.
    rewrite bool_decide_eq_true_2; [done|]. apply elem_of_cons. by left.
  - rewrite (bool_decide_eq_false_2 _ Hne), IH.
    do 2 f_equal. apply bool_decide_ext. rewrite elem_of_cons.
    split; [by right|]. by intros [->|?].
Qed.

Lemma is_node_in_raft_peers_member node_id st :
  Vault.is_node_in_raft_peers c node_id st
  = (Ok (bool_decide (node_id ∈ peers (world st))), st).
Proof.
  destruct (read_peers _ _ obeys (world st)) as (cfg & Hread & servers & Hservers & Hids).
  unfold Vault.is_node_in_raft_peers.
  rewrite (bind_ok _ _ _ _ _ (call_run _ st _ _ Hread)), at_world_id.
  unfold bind at 1, lift at 1. rewrite Hservers.
  unfold bind, lift. simpl. by apply scan_peers_member.
Qed.

Lemma get_num_raft_peers_length st :
  Vault.get_num_raft_peers c st = (Ok (Z.of_nat (length (peers (world st)))), st).
Proof.
  destruct (read_peers _ _ obeys (world st)) as (cfg & Hread & servers & Hservers & Hids).
  unfold Vault.get_num_raft_peers.
  rewrite (bind_ok _ _ _ _ _ (call_run _ st _ _ Hread)), at_world_id.
  unfold bind, lift. rewrite Hservers. simpl.
  by rewrite (Forall2_length _ _ _ Hids).
Qed.

Lemma remove_raft_node_filters node_id st :
  exists st1,
    Vault.remove_raft_node c node_id st = (Ok tt, st1)
    /\ log st1 = (log st ++ [LogRecord INFO ("Removed raft node " ++ node_id)])%list
    /\ peers (world st1) = filter (fun p => p <> node_id) (peers (world st)).
Proof.
  destruct (remove_peer _ _ obeys node_id (world st)) as (r & w' & Hremove & Hpeers).
  exists (logged INFO ("Removed raft node " ++ node_id) (at_world w' st)).
  split_and!; [|done..].
  unfold Vault.remove_raft_node.
  by rewrite (bind_ok _ _ _ _ _ (call_run _ st _ _ Hremove)).
Qed.
End Peers.

Lemma filter_non_member (node_id : string) (ids : list string) :
  node_id ∉ ids -> filter (fun p => p <> node_id) ids = ids.
Proof.
  induction ids as [|id ids IH]; [done|].
  rewrite not_elem_of_cons. intros [Hne Hrest].
  rewrite filter_cons_True by done. by rewrite IH.
Qed.

(** C4.  On a cluster that obeys the membership rules, with peers
    [a], [b], [c]: after [remove_raft_node("b")] the peers read are
    [a], [c], [get_num_raft_peers()] is 2 and [is_node_in_raft_peers("b")]
    is [False].  In every state [is_node_in_raft_peers(id)] is [True]
    exactly when [id] is equal, as a string, to the [node_id] of a peer,
    and [get_num_raft_peers()] is the number of peers. *)
Theorem remove_then_read {W} (c : Client W) (peers : W -> list string) :
  Membership c peers ->
  (forall st,
     peers (world st) = ["a"; "b"; "c"] ->
     exists st1,
       Vault.remove_raft_node c "b" st = (Ok tt, st1)
       /\ peers (world st1) = ["a"; "c"]
       /\ Vault.get_num_raft_peers c st1 = (Ok 2%Z, st1)
       /\ Vault.is_node_in_raft_peers c "b" st1 = (Ok false, st1))
  /\ (forall node_id st,
        exists found,
          Vault.is_node_in_raft_peers c node_id st = (Ok found, st)
          /\ (found = true <-> exists id, id ∈ peers (world st) /\ id = node_id))
  /\ (forall st,
        Vault.get_num_raft_peers c st = (Ok (Z.of_nat (length (peers (world st)))), st)).
Proof.
  intros obeys. split_and!.
  - intros st Habc.
    destruct (remove_raft_node_filters c peers obeys "b" st) as (st1 & Hrun & _ & Hpeers).
    rewrite Habc in Hpeers.
    exists st1. split_and!; [done|done| |].
    + by rewrite (get_num_raft_peers_length c peers obeys), Hpeers.
    + by rewrite (is_node_in_raft_peers_member c peers obeys), Hpeers.
  - intros node_id st. eexists. split.
    + apply (is_node_in_raft_peers_member c peers obeys).
    + rewrite bool_decide_eq_true. split.
      * intros Hin. by exists node_id.
      * by intros (id & Hin & ->).
  - apply (get_num_raft_peers_length c peers obeys).
Qed.

(** The scenario on the reference cluster. *)
Lemma remove_then_read_witness :
  exists st1,
    Vault.remove_raft_node Sim.client "b" (mkState serving_cluster []) = (Ok tt, st1)
    /\ Sim.peers (world st1) = ["a"; "c"]
    /\ Vault.get_num_raft_peers Sim.client st1 = (Ok 2%Z, st1)
    /\ Vault.is_node_in_raft_peers Sim.client "b" st1 = (Ok false, st1).
Proof.
  apply (proj1 (remove_then_read Sim.client Sim.peers Sim_membership)
           (mkState serving_cluster [])).
  reflexivity.
Defined.

(** Membership is by equality of strings: no case folding, no trimming. *)
Example is_node_in_raft_peers_exact :
  fst (Vault.is_node_in_raft_peers Sim.client "b" (mkState serving_cluster [])) = Ok true
  /\ fst (Vault.is_node_in_raft_peers Sim.client "B" (mkState serving_cluster [])) = Ok false
  /\ fst (Vault.is_node_in_raft_peers Sim.client "b " (mkState serving_cluster [])) = Ok false.
Proof. split_and!; reflexivity. Qed.

(** C5.  On a cluster that obeys the membership rules, [remove_raft_node]
    of an id that is no peer returns without raising, logs the removal as
    it does for a peer, and leaves the peer list as it was.  The method
    has no handler: for every client, an error the call raises reaches
    the caller. *)
Theorem remove_non_member {W} (c : Client W) (peers : W -> list string) :
  Membership c peers ->
  (forall node_id st,
     node_id ∉ peers (world st) ->
     exists st1,
       Vault.remove_raft_node c node_id st = (Ok tt, st1)
       /\ log st1 = (log st ++ [LogRecord INFO ("Removed raft node " ++ node_id)])%list
       /\ peers (world st1) = peers (world st))
  /\ (forall node_id st,
        node_id ∈ peers (world st) ->
        exists st1,
          Vault.remove_raft_node c node_id st = (Ok tt, st1)
          /\ log st1 = (log st ++ [LogRecord INFO ("Removed raft node " ++ node_id)])%list)
  /\ (forall W' (c' : Client W') node_id (st : state W') e w',
        sys_remove_raft_node c' node_id (world st) = (Raise e, w') ->
        Vault.remove_raft_node c' node_id st = (Raise e, at_world w' st)).
Proof.
  intros obeys. split_and!.
  - intros node_id st Hnot.
    destruct (remove_raft_node_filters c peers obeys node_id st)
      as (st1 & Hrun & Hlog & Hpeers).
    exists st1. split_and!; [done..|].
    by rewrite Hpeers, filter_non_member.
  - intros node_id st _.
    destruct (remove_raft_node_filters c peers obeys node_id st)
      as (st1 & Hrun & Hlog & _).
    by exists st1.
  - intros W' c' node_id st e w' Hraise.
    unfold Vault.remove_raft_node. apply bind_raise. by apply call_run.
Qed.

(** The reference cluster has no peer [d]. *)
Lemma remove_non_member_witness :
  exists st1,
    Vault.remove_raft_node Sim.client "d" (mkState serving_cluster []) = (Ok tt, st1)
    /\ log st1 = [LogRecord INFO "Removed raft node d"]
    /\ Sim.peers (world st1) = ["a"; "b"; "c"].
Proof.
  apply (proj1 (remove_non_member Sim.client Sim.peers Sim_membership)
           "d" (mkState serving_cluster [])).
  apply (bool_decide_unpack _). by vm_compute.
Defined.

(** ** Enabling audit devices, auth methods and secrets engines *)

Lemma enabled_at_free path table : path ∉ table.*1 -> enabled_at path table = [].
Proof.
  unfold enabled_at. induction table as [|[p x] table IH]; [done|].
  rewrite fmap_cons, not_elem_of_cons. intros [Hne Hrest].
  rewrite filter_cons_False by (simpl; intros ->; by apply Hne). by apply IH.
Qed.

Lemma enabled_at_added (path x : string) table :
  path ∉ table.*1 -> enabled_at path (table ++ [(path, x)])%list = [x].
Proof.
  intros Hfree. pose proof (enabled_at_free _ _ Hfree) as Hnone.
  unfold enabled_at in *. rewrite filter_app, fmap_app, Hnone.
  by rewrite filter_cons_True.
Qed.

Lemma in_use_added (path x : string) (table : list (string * string)) :
  path ∈ ((table ++ [(path, x)])%list).*1.
Proof. rewrite fmap_app, elem_of_app. right. by apply list_elem_of_singleton. Qed.

Section Enable.
Context {W : Type} (c : Client W) (audit auths mounts : W -> list (string * string)).
Hypothesis obeys : Enabling c audit auths mounts.

(** One call of a method of the three: [request] is the call on the
    client, [done_text] what is logged when it returns and [again_text]
    what is logged when it is rejected. *)
Let enable (request : Call W value) (done_text again_text : string) : M W unit :=
  try_except
    (_ <- call request;; emit INFO done_text)
    [InvalidRequest]
    (fun _ => emit INFO again_text).

Lemma enable_accepted request done_text again_text st r w' :
  request (world st) = (Ok r, w') ->
  enable request done_text again_text st = (Ok tt, logged INFO done_text (at_world w' st)).
Proof.
  intros Hreq. unfold enable. apply try_ok.
  by rewrite (bind_ok _ _ _ _ _ (call_run _ st _ _ Hreq)).
Qed.

Lemma enable_rejected request done_text again_text st e :
  request (world st) = (Raise e, world st) ->
  isinstance e InvalidRequest = true ->
  enable request done_text again_text st = (Ok tt, logged INFO again_text st).
Proof.
  intros Hreq Hcls. unfold enable.
  rewrite (try_caught _ _ _ _ e st); [done| |by rewrite isinstance_any_one].
  apply bind_raise. rewrite <- (at_world_id st) at 2. by apply call_run.
Qed.

Lemma enable_audit_device_twice device_type path path' st :
  AuditDeviceType_value device_type ∉ (audit (world st)).*1 ->
  exists st1,
    Vault.enable_audit_device c device_type path st = (Ok tt, st1)
    /\ Vault.enable_audit_device c device_type path' st1
       = (Ok tt, logged INFO "Audit device already enabled." st1)
    /\ enabled_at (AuditDeviceType_value device_type) (audit (world st1)) = [path].
Proof.
  intros Hfree.
  destruct (audit_free _ _ _ _ obeys _ {[ "file_path" := path ]} _ Hfree)
    as (r & w' & Hreq & Htable).
  rewrite lookup_singleton_eq in Htable. simpl in Htable.
  eexists. split_and!.
  - apply (enable_accepted _ _ "Audit device already enabled." _ _ _ Hreq).
  - simpl.
    assert (AuditDeviceType_value device_type ∈ (audit w').*1) as Hused
      by (rewrite Htable; apply in_use_added).
    destruct (audit_in_use _ _ _ _ obeys _ {[ "file_path" := path' ]} _ Hused)
      as (e & Hrej & Hcls).
    by apply (enable_rejected _ _ _ (logged _ _ (at_world w' st)) e).
  - simpl. rewrite Htable. by apply enabled_at_added.
Qed.

Lemma enable_approle_auth_method_twice st :
  "approle" ∉ (auths (world st)).*1 ->
  exists st1,
    Vault.enable_approle_auth_method c st = (Ok tt, st1)
    /\ Vault.enable_approle_auth_method c st1
       = (Ok tt, logged INFO "Approle already enabled." st1)
    /\ enabled_at "approle" (auths (world st1)) = ["approle"].
Proof.
  intros Hfree.
  destruct (auth_free _ _ _ _ obeys _ _ Hfree) as (r & w' & Hreq & Htable).
  eexists. split_and!.
  - apply (enable_accepted _ _ "Approle already enabled." _ _ _ Hreq).
  - simpl.
    assert ("approle" ∈ (auths w').*1) as Hused
      by (rewrite Htable; apply in_use_added).
    destruct (auth_in_use _ _ _ _ obeys _ _ Hused) as (e & Hrej & Hcls).
    by apply (enable_rejected _ _ _ (logged _ _ (at_world w' st)) e).
  - simpl. rewrite Htable. by apply enabled_at_added.
Qed.

Lemma enable_secrets_engine_twice backend_type backend_type' path st :
  path ∉ (mounts (world st)).*1 ->
  exists st1,
    Vault.enable_secrets_engine c backend_type path st = (Ok tt, st1)
    /\ Vault.enable_secrets_engine c backend_type' path st1
       = (Ok tt, logged INFO (SecretsBackend_value backend_type' ++ " backend already enabled") st1)
    /\ enabled_at path (mounts (world st1)) = [SecretsBackend_value backend_type].
Proof.
  intros Hfree.
  destruct (mount_free _ _ _ _ obeys (SecretsBackend_value backend_type)
              ("Charm created '" ++ SecretsBackend_value backend_type ++ "' backend")
              _ _ Hfree) as (r & w' & Hreq & Htable).
  eexists. split_and!.
  - apply (enable_accepted _ _
             (SecretsBackend_value backend_type ++ " backend already enabled") _ _ _ Hreq).
  - simpl.
    assert (path ∈ (mounts w').*1) as Hused
      by (rewrite Htable; apply in_use_added).
    destruct (mount_in_use _ _ _ _ obeys (SecretsBackend_value backend_type')
                ("Charm created '" ++ SecretsBackend_value backend_type' ++ "' backend")
                _ _ Hused) as (e & Hrej & Hcls).
    by apply (enable_rejected _ _ _ (logged _ _ (at_world w' st)) e).
  - simpl. rewrite Htable. by apply enabled_at_added.
Qed.
End Enable.

(** C6.  On a cluster that obeys the enabling rules, each of
    [enable_audit_device], [enable_approle_auth_method] and
    [enable_secrets_engine], called a second time for a path the first
    call enabled, does not raise: the rejection of the cluster is caught,
    the method logs that the resource is already enabled and returns, and
    the cluster, left as it was after the first call, holds exactly one
    resource at the path, the one the first call enabled.  This holds for
    every device type, backend type and path, also when the second call
    names another file or backend type. *)
Theorem enabling_is_idempotent {W} (c : Client W)
    (audit auths mounts : W -> list (string * string)) :
  Enabling c audit auths mounts ->
  (forall device_type path path' st,
     AuditDeviceType_value device_type ∉ (audit (world st)).*1 ->
     exists st1,
       Vault.enable_audit_device c device_type path st = (Ok tt, st1)
       /\ Vault.enable_audit_device c device_type path' st1
          = (Ok tt, logged INFO "Audit device already enabled." st1)
       /\ enabled_at (AuditDeviceType_value device_type) (audit (world st1)) = [path])
  /\ (forall st,
        "approle" ∉ (auths (world st)).*1 ->
        exists st1,
          Vault.enable_approle_auth_method c st = (Ok tt, st1)
          /\ Vault.enable_approle_auth_method c st1
             = (Ok tt, logged INFO "Approle already enabled." st1)
          /\ enabled_at "approle" (auths (world st1)) = ["approle"])
  /\ (forall backend_type backend_type' path st,
        path ∉ (mounts (world st)).*1 ->
        exists st1,
          Vault.enable_secrets_engine c backend_type path st = (Ok tt, st1)
          /\ Vault.enable_secrets_engine c backend_type' path st1
             = (Ok tt, logged INFO (SecretsBackend_value backend_type'
                                    ++ " backend already enabled") st1)
          /\ enabled_at path (mounts (world st1)) = [SecretsBackend_value backend_type]).
Proof.
  intros obeys. split_and!.
  - apply (enable_audit_device_twice c audit auths mounts obeys).
  - apply (enable_approle_auth_method_twice c audit auths mounts obeys).
  - apply (enable_secrets_engine_twice c audit auths mounts obeys).
Qed.

(** A key-value engine enabled twice at [charm-kv] on the reference
    cluster. *)
Lemma enabling_is_idempotent_witness :
  exists st1,
    Vault.enable_secrets_engine Sim.client KV_V2 "charm-kv" (mkState serving_cluster [])
    = (Ok tt, st1)
    /\ Vault.enable_secrets_engine Sim.client KV_V2 "charm-kv" st1
       = (Ok tt, logged INFO "kv-v2 backend already enabled" st1)
    /\ enabled_at "charm-kv" (Sim.mounts (world st1)) = ["kv-v2"].
Proof.
  apply (proj2 (proj2 (enabling_is_idempotent Sim.client _ _ _ Sim_enabling))
           KV_V2 KV_V2 "charm-kv" (mkState serving_cluster [])).
  apply (bool_decide_unpack _). by vm_compute.
Defined.

(** ** Snapshots *)

(** C9.  [restore_snapshot] is the forced restore of the client, for
    every snapshot and every client.  So on a cluster that obeys the
    snapshot rules, the blob [create_snapshot] returned restores in every
    later state of the cluster whose unseal key is another than the one
    in force at backup time, where the plain restore of the client would
    be refused. *)
Theorem restore_is_forced {W} (c : Client W) (seal_key : W -> string)
    (sealed_with : string -> option string) :
  Snapshots c seal_key sealed_with ->
  (forall snapshot st,
     Vault.restore_snapshot c snapshot st
     = let (r, w') := sys_force_restore_raft_snapshot c snapshot (world st) in
       (r, at_world w' st))
  /\ (forall st,
        exists backup,
          Vault.create_snapshot c st = (Ok backup, st)
          /\ forall st2,
               seal_key (world st2) <> seal_key (world st) ->
               (exists response st3,
                  Vault.restore_snapshot c (content backup) st2 = (Ok response, st3))
               /\ (exists e w',
                     sys_restore_raft_snapshot c (content backup) (world st2)
                     = (Raise e, w'))).
Proof.
  intros obeys. split; [done|].
  intros st.
  destruct (take_snapshot _ _ _ obeys (world st)) as (backup & Htake & Hkey).
  exists backup. split.
  - unfold Vault.create_snapshot.
    rewrite <- (at_world_id st) at 2. by apply call_run.
  - intros st2 Hrotated. split.
    + destruct (forced_restore _ _ _ obeys _ _ (world st2) Hkey)
        as (response & w' & Hrestore).
      exists response, (at_world w' st2). by apply call_run.
    + apply (plain_restore _ _ _ obeys _ _ _ Hkey). congruence.
Qed.

(** A backup of the reference cluster under [generation-1], restored
    after the unseal key was rotated to [generation-2]. *)
Lemma restore_is_forced_witness :
  exists backup,
    Vault.create_snapshot Sim.client (mkState serving_cluster [])
    = (Ok backup, mkState serving_cluster [])
    /\ (exists response st3,
          Vault.restore_snapshot Sim.client (content backup)
            (mkState (Sim.set_seal_key "generation-2" serving_cluster) [])
          = (Ok response, st3))
    /\ (exists e w',
          Sim.restore_raft_snapshot (content backup)
            (Sim.set_seal_key "generation-2" serving_cluster)
          = (Raise e, w')).
Proof.
  destruct (proj2 (restore_is_forced Sim.client Sim.seal_key Sim.snapshot_key Sim_snapshots)
              (mkState serving_cluster [])) as (backup & Hbackup & Hlater).
  exists backup. split; [exact Hbackup|].
  apply (Hlater (mkState (Sim.set_seal_key "generation-2" serving_cluster) [])).
  simpl. discriminate.
Defined.

Example restore_after_rotation :
  let rotated := Sim.set_seal_key "generation-2" serving_cluster in
  Vault.create_snapshot Sim.client (mkState serving_cluster [])
    = (Ok (mkResponse 200 "raft-snapshot:generation-1"), mkState serving_cluster [])
  /\ Vault.restore_snapshot Sim.client "raft-snapshot:generation-1" (mkState rotated [])
     = (Ok (mkResponse 204 ""), mkState rotated [])
  /\ Sim.restore_raft_snapshot "raft-snapshot:generation-1" rotated
     = (Raise (Sim.rejection "snapshot was taken with another unseal key"), rotated).
Proof. split_and!; reflexivity. Qed.

(** * Further properties of the methods *)

(** ** Subscripts *)

Lemma getitem_missing (d : gmap string value) (key : string) :
  d !! key = None -> getitem (VDict d) key = Raise (Exn KeyError key).
Proof. simpl. by intros ->. Qed.

(** What a subscript raises is a [KeyError] or a [TypeError]: no handler
    of the module catches it. *)
Lemma getitem_raises_builtin v key e :
  getitem v key = Raise e -> exn_cls e = KeyError \/ exn_cls e = TypeError.
Proof.
  destruct v as [| | | | |d]; simpl; try (intros [= <-]; by right).
  destruct (d !! key); [done|]. intros [= <-]. by left.
Qed.

Lemma builtin_not_caught e cls :
  exn_cls e = KeyError \/ exn_cls e = TypeError ->
  cls <> KeyError -> cls <> TypeError ->
  isinstance e cls = false.
Proof.
  intros Hcls Hk Ht. unfold isinstance. apply bool_decide_eq_false_2.
  destruct Hcls as [-> | ->]; simpl; rewrite list_elem_of_singleton; congruence.
Qed.

(** ** [initialize] on every client *)

(** X1.  [initialize] has no handler and logs before it reads the answer:
    an error of the call reaches the caller with nothing logged, and an
    answer that lacks [root_token] or [keys] raises a [KeyError] for the
    missing key after the call took effect on the cluster and after
    "Vault is initialized" was logged. *)
Theorem initialize_malformed_response {W} (c : Client W)
    (secret_shares secret_threshold : Z) (st : state W) :
  (forall e w',
     sys_initialize c secret_shares secret_threshold (world st) = (Raise e, w') ->
     Vault.initialize c secret_shares secret_threshold st = (Raise e, at_world w' st))
  /\ (forall d w',
        sys_initialize c secret_shares secret_threshold (world st) = (Ok (VDict d), w') ->
        d !! "root_token" = None \/ d !! "keys" = None ->
        exists key,
          (key = "root_token" \/ key = "keys")
          /\ d !! key = None
          /\ Vault.initialize c secret_shares secret_threshold st
             = (Raise (Exn KeyError key),
                logged INFO "Vault is initialized" (at_world w' st))).
Proof.
  split.
  - intros e w' Hinit. unfold Vault.initialize.
    apply bind_raise. by apply call_run.
  - intros d w' Hinit Hmissing. apply (call_run _ st) in Hinit.
    unfold Vault.initialize. rewrite (bind_ok _ _ _ _ _ Hinit).
    unfold bind, emit, lift, ret. simpl.
    destruct (d !! "root_token") as [tok|] eqn:Htok.
    + destruct Hmissing as [|Hkeys]; [done|].
      exists "keys". rewrite Hkeys. by split_and!; [right|..].
    + exists "root_token". by split_and!; [left|..].
Qed.

(** An answer with the keys but no root token: one call was made, the
    record is on the log, and the method raises. *)
Lemma initialize_malformed_response_witness :
  exists key,
    (key = "root_token" \/ key = "keys")
    /\ ({[ "keys" := VList [VStr "k"] ]} : gmap string value) !! key = None
    /\ Vault.initialize (Mock.returning (VDict {[ "keys" := VList [VStr "k"] ]})) 1 1
         (mkState 0%nat [])
       = (Raise (Exn KeyError key),
          mkState 1%nat [LogRecord INFO "Vault is initialized"]).
Proof.
  apply (proj2 (initialize_malformed_response
                  (Mock.returning (VDict {[ "keys" := VList [VStr "k"] ]})) 1 1
                  (mkState 0%nat []))
           {[ "keys" := VList [VStr "k"] ]} 1%nat eq_refl).
  left. reflexivity.
Defined.

(** ** [sign_pki_certificate_signing_request] on a malformed answer *)

(** X2.  The handler of [sign_pki_certificate_signing_request] catches
    [InvalidRequest] only, and the method logs before it reads the
    answer: when the answer has no [data] envelope, or the envelope lacks
    [certificate], [issuing_ca] or [ca_chain], the error of the subscript
    reaches the caller, it is not turned into [None], and "Signed a PKI
    certificate" is already on the log. *)
Theorem sign_malformed_response {W} (c : Client W)
    (mount role csr common_name : string) (st : state W) response w' :
  pki_sign_certificate c csr mount common_name role (world st) = (Ok response, w') ->
  let st' := logged INFO ("Signed a PKI certificate for " ++ common_name)
               (at_world w' st) in
  (forall e,
     getitem response "data" = Raise e ->
     Vault.sign_pki_certificate_signing_request c mount role csr common_name st
     = (Raise e, st'))
  /\ (forall d,
        getitem response "data" = Ok (VDict d) ->
        d !! "certificate" = None \/ d !! "issuing_ca" = None \/ d !! "ca_chain" = None ->
        exists key,
          d !! key = None
          /\ Vault.sign_pki_certificate_signing_request c mount role csr common_name st
             = (Raise (Exn KeyError key), st')).
Proof.
  intros Hsign st'. apply (call_run _ st) in Hsign.
  assert (forall e,
            exn_cls e = KeyError \/ exn_cls e = TypeError ->
            isinstance_any e [InvalidRequest] = false) as Hpass.
  { intros e He. rewrite isinstance_any_one. by apply builtin_not_caught. }
  split.
  - intros e Hdata. unfold Vault.sign_pki_certificate_signing_request.
    apply try_passed; [|by eapply Hpass, getitem_raises_builtin].
    rewrite (bind_ok _ _ _ _ _ Hsign).
    unfold bind, emit, lift. simpl. by rewrite Hdata.
  - intros d Hdata Hmissing.
    assert (exists key,
              d !! key = None
              /\ (response <- call (pki_sign_certificate c csr mount common_name role);;
                  emit INFO ("Signed a PKI certificate for " ++ common_name);;;
                  data <- lift (getitem response "data");;
                  cert <- lift (getitem data "certificate");;
                  data <- lift (getitem response "data");;
                  issuing_ca <- lift (getitem data "issuing_ca");;
                  data <- lift (getitem response "data");;
                  ca_chain <- lift (getitem data "ca_chain");;
                  ret (Some {| certificate := cert; ca := issuing_ca; chain := ca_chain |}))
                   st
                 = (Raise (Exn KeyError key), st')) as (key & Hkey & Hrun).
    { rewrite (bind_ok _ _ _ _ _ Hsign).
      unfold bind, emit, lift, ret. simpl. rewrite Hdata. simpl.
      destruct (d !! "certificate") eqn:Hcert; [|by exists "certificate"].
      destruct (d !! "issuing_ca") eqn:Hca; [|by exists "issuing_ca"].
      destruct (d !! "ca_chain") eqn:Hchain; [|by exists "ca_chain"].
      by destruct Hmissing as [?|[?|?]]. }
    exists key. split; [done|].
    unfold Vault.sign_pki_certificate_signing_request.
    by apply try_passed; [|apply Hpass; left].
Qed.

(** An answer whose envelope holds the certificate but no issuing CA. *)
Lemma sign_malformed_response_witness :
  exists key,
    ({[ "certificate" := VStr "pem" ]} : gmap string value) !! key = None
    /\ Vault.sign_pki_certificate_signing_request
         (Mock.returning (VDict {[ "data" := VDict {[ "certificate" := VStr "pem" ]} ]}))
         "charm-pki" "charm" "CSR" "unit.vault.local" (mkState 0%nat [])
       = (Raise (Exn KeyError key),
          mkState 1%nat [LogRecord INFO "Signed a PKI certificate for unit.vault.local"]).
Proof.
  refine (proj2 (sign_malformed_response
                   (Mock.returning (VDict {[ "data" := VDict {[ "certificate" := VStr "pem" ]} ]}))
                   "charm-pki" "charm" "CSR" "unit.vault.local" (mkState 0%nat [])
                   _ 1%nat eq_refl)
            {[ "certificate" := VStr "pem" ]} _ _).
  - reflexivity.
  - right. left. reflexivity.
Defined.

(** ** The health predicates, beyond the two families of errors *)

(** X3.  The handler of [is_api_available] and [is_active] names
    [VaultError] and [RequestException] and nothing else: an error of the
    health query outside both families is raised to the caller by both
    predicates, with nothing logged. *)
Theorem health_predicates_let_other_errors_through {W} (c : Client W) (st : state W) e w' :
  sys_read_health_status c true (world st) = (Raise e, w') ->
  cluster_failure e = false ->
  transport_failure e = false ->
  Vault.is_api_available c st = (Raise e, at_world w' st)
  /\ Vault.is_active c st = (Raise e, at_world w' st).
Proof.
  intros Hq Hcluster Htransport. apply (call_run _ st) in Hq.
  assert (isinstance_any e [VaultError; RequestException] = false) as Hpass
    by (by rewrite isinstance_any_failure, Hcluster, Htransport).
  split.
  - unfold Vault.is_api_available. apply try_passed; [by apply bind_raise|done].
  - unfold Vault.is_active. apply try_passed; [by apply bind_raise|done].
Qed.

(** A client whose health query raises a [TypeError]. *)
Lemma health_predicates_let_other_errors_through_witness :
  Vault.is_api_available (Mock.raising (Exn TypeError "bad argument")) (mkState 0%nat [])
    = (Raise (Exn TypeError "bad argument"), mkState 1%nat [])
  /\ Vault.is_active (Mock.raising (Exn TypeError "bad argument")) (mkState 0%nat [])
     = (Raise (Exn TypeError "bad argument"), mkState 1%nat []).
Proof.
  exact (health_predicates_let_other_errors_through
           (Mock.raising (Exn TypeError "bad argument")) (mkState 0%nat [])
           (Exn TypeError "bad argument") 1%nat eq_refl eq_refl eq_refl).
Defined.

(** X4.  [is_active] and [is_api_available] are two readings of one
    query: from the same state they leave the same cluster and the same
    log, they raise the same errors, and whenever [is_active] is [True]
    so is [is_api_available]. *)
Theorem is_active_implies_available {W} (c : Client W) (st : state W) :
  snd (Vault.is_active c st) = snd (Vault.is_api_available c st)
  /\ (fst (Vault.is_active c st) = Ok true ->
      fst (Vault.is_api_available c st) = Ok true)
  /\ (forall e,
        fst (Vault.is_active c st) = Raise e
        <-> fst (Vault.is_api_available c st) = Raise e).
Proof.
  unfold Vault.is_active, Vault.is_api_available, try_except, bind, call, ret, emit.
  destruct (sys_read_health_status c true (world st)) as [[response|e] w']; simpl.
  - by split_and!.
  - destruct (isinstance_any e [VaultError; RequestException]); simpl; by split_and!.
Qed.

(** The converse fails: a sealed cluster answers 503, it is available and
    not active. *)
Lemma is_active_implies_available_witness :
  fst (Vault.is_api_available Sim.client (mkState serving_cluster [])) = Ok true
  /\ fst (Vault.is_api_available Sim.client (mkState sealed_cluster [])) = Ok true
  /\ fst (Vault.is_active Sim.client (mkState sealed_cluster [])) = Ok false.
Proof.
  split_and!; [|reflexivity..].
  exact (proj1 (proj2 (is_active_implies_available Sim.client
                         (mkState serving_cluster [])))
           eq_refl).
Defined.

(** ** The enabling methods on every client *)

Section Swallow.
Context {W : Type}.

(** The shape the three enabling methods share. *)
Lemma enable_rejected_outcome (request : Call W value) (done_text again_text : string)
    (st : state W) e w' :
  request (world st) = (Raise e, w') ->
  try_except
    (_ <- call request;; emit INFO done_text)
    [InvalidRequest]
    (fun _ => emit INFO again_text) st
  = if isinstance e InvalidRequest
    then (Ok tt, logged INFO again_text (at_world w' st))
    else (Raise e, at_world w' st).
Proof.
  intros Hreq. apply (call_run _ st) in Hreq.
  destruct (isinstance e InvalidRequest) eqn:Hcls.
  - rewrite (try_caught _ _ _ _ e (at_world w' st));
      [done|by apply bind_raise|by rewrite isinstance_any_one].
  - apply try_passed; [by apply bind_raise|by rewrite isinstance_any_one].
Qed.
End Swallow.

(** X5.  The three enabling methods do not look at why a request was
    refused.  Every [InvalidRequest] the call raises, whatever its
    message, is logged as "already enabled" and the method returns
    normally; an error of any other class is raised to the caller with
    nothing logged. *)
Theorem enabling_reports_any_invalid_request {W} (c : Client W) (st : state W) :
  (forall device_type path e w',
     sys_enable_audit_device c (AuditDeviceType_value device_type)
       {[ "file_path" := path ]} (world st) = (Raise e, w') ->
     Vault.enable_audit_device c device_type path st
     = if isinstance e InvalidRequest
       then (Ok tt, logged INFO "Audit device already enabled." (at_world w' st))
       else (Raise e, at_world w' st))
  /\ (forall e w',
        sys_enable_auth_method c "approle" (world st) = (Raise e, w') ->
        Vault.enable_approle_auth_method c st
        = if isinstance e InvalidRequest
          then (Ok tt, logged INFO "Approle already enabled." (at_world w' st))
          else (Raise e, at_world w' st))
  /\ (forall backend_type path e w',
        sys_enable_secrets_engine c (SecretsBackend_value backend_type)
          ("Charm created '" ++ SecretsBackend_value backend_type ++ "' backend")
          path (world st) = (Raise e, w') ->
        Vault.enable_secrets_engine c backend_type path st
        = if isinstance e InvalidRequest
          then (Ok tt,
                logged INFO (SecretsBackend_value backend_type ++ " backend already enabled")
                  (at_world w' st))
          else (Raise e, at_world w' st)).
Proof.
  split_and!.
  - intros device_type path e w' Hreq.
    by apply (enable_rejected_outcome _ _ _ st e w').
  - intros e w' Hreq.
    by apply (enable_rejected_outcome _ _ _ st e w').
  - intros backend_type path e w' Hreq.
    by apply (enable_rejected_outcome _ _ _ st e w').
Qed.

(** A request refused for a reason that has nothing to do with the path
    being in use is reported as "already enabled"; a refusal of another
    class is raised. *)
Lemma enabling_reports_any_invalid_request_witness :
  Vault.enable_secrets_engine
    (Mock.raising (Exn InvalidRequest "plugin not found in the catalog"))
    PKI "charm-pki" (mkState 0%nat [])
  = (Ok tt, mkState 1%nat [LogRecord INFO "pki backend already enabled"])
  /\ Vault.enable_secrets_engine
       (Mock.raising (Exn Forbidden "permission denied"))
       PKI "charm-pki" (mkState 0%nat [])
     = (Raise (Exn Forbidden "permission denied"), mkState 1%nat []).
Proof.
  split.
  - exact (proj2 (proj2 (enabling_reports_any_invalid_request
                           (Mock.raising (Exn InvalidRequest "plugin not found in the catalog"))
                           (mkState 0%nat [])))
             PKI "charm-pki" _ 1%nat eq_refl).
  - exact (proj2 (proj2 (enabling_reports_any_invalid_request
                           (Mock.raising (Exn Forbidden "permission denied"))
                           (mkState 0%nat [])))
             PKI "charm-pki" _ 1%nat eq_refl).
Defined.

(** ** The peer queries on every client *)

Section Scan.
Context {W : Type}.
Implicit Types (st : state W).

(** The scan changes nothing. *)
Lemma scan_peers_pure entries node_id st :
  snd (Vault.scan_peers entries node_id st) = st.
Proof.
  induction entries as [|entry entries IH]; [done|].
  cbn [Vault.scan_peers]. unfold bind, lift.
  destruct (getitem entry "node_id") as [id|e]; [|done].
  by destruct (eq_str id node_id).
Qed.

(** It returns at the first entry that matches, and does not look at the
    entries behind it. *)
Lemma scan_peers_app good ids rest node_id st :
  Forall2 (fun server id => getitem server "node_id" = Ok (VStr id)) good ids ->
  Vault.scan_peers (good ++ rest) node_id st
  = if bool_decide (node_id ∈ ids) then (Ok true, st)
    else Vault.scan_peers rest node_id st.
Proof.
  induction 1 as [|server id good ids Hid _ IH].
  - by rewrite bool_decide_eq_false_2 by apply not_elem_of_nil.
  - rewrite <- app_comm_cons. cbn [Vault.scan_peers].
    unfold bind, lift. rewrite Hid. cbn [eq_str].
    destruct (decide (id = node_id)) as [->|Hne].
    + rewrite bool_decide_eq_true_2 by done.
      rewrite bool_decide_eq_true_2; [done|]. apply elem_of_cons. by left.
    + rewrite (bool_decide_eq_false_2 _ Hne), IH.
      replace (bool_decide (node_id ∈ id :: ids)) with (bool_decide (node_id ∈ ids));
        [done|].
      apply bool_decide_ext. rewrite elem_of_cons.
      split; [by right|]. by intros [->|?].
Qed.

(** Nothing is found among entries that are strings: the subscript of a
    string by a string raises. *)
Lemma scan_peers_strings (names : list string) node_id st :
  fst (Vault.scan_peers (VStr <$> names) node_id st) <> Ok true.
Proof. by destruct names. Qed.

Lemma chars_strings s : exists names, chars s = VStr <$> names.
Proof.
  induction s as [|a s [names IH]]; [by exists []|].
  exists (String a EmptyString :: names). simpl. by rewrite IH.
Qed.

Lemma scan_peers_found entries node_id st :
  fst (Vault.scan_peers entries node_id st) = Ok true -> entries <> [].
Proof. by destruct entries. Qed.

End Scan.

(** X6.  [is_node_in_raft_peers] returns from inside its loop.  When a
    peer with the given id stands before the first malformed entry of the
    list, the answer is [True] and the entries behind the match are never
    read; when a malformed entry comes first, the error of its subscript
    is raised. *)
Theorem is_node_in_raft_peers_stops_at_match {W} (c : Client W)
    (node_id : string) (st : state W) raft_config w' good ids rest :
  sys_read_raft_config c (world st) = (Ok raft_config, w') ->
  Vault.raft_servers raft_config = Ok (VList (good ++ rest)) ->
  Forall2 (fun server id => getitem server "node_id" = Ok (VStr id)) good ids ->
  (node_id ∈ ids ->
   Vault.is_node_in_raft_peers c node_id st = (Ok true, at_world w' st))
  /\ (node_id ∉ ids ->
      forall bad rest' e,
        rest = bad :: rest' ->
        getitem bad "node_id" = Raise e ->
        Vault.is_node_in_raft_peers c node_id st = (Raise e, at_world w' st)).
Proof.
  intros Hread Hservers Hgood.
  assert (Vault.is_node_in_raft_peers c node_id st
          = if bool_decide (node_id ∈ ids) then (Ok true, at_world w' st)
            else Vault.scan_peers rest node_id (at_world w' st)) as Hrun.
  { unfold Vault.is_node_in_raft_peers.
    rewrite (bind_ok _ _ _ _ _ (call_run _ st _ _ Hread)).
    unfold bind at 1, lift at 1. rewrite Hservers.
    unfold bind, lift. simpl. by apply scan_peers_app. }
  split.
  - intros Hin. by rewrite Hrun, bool_decide_eq_true_2.
  - intros Hout bad rest' e -> Hbad.
    rewrite Hrun, bool_decide_eq_false_2 by done.
    cbn [Vault.scan_peers]. unfold bind, lift. by rewrite Hbad.
Qed.

(** A list whose second entry has no [node_id]: [a], before it, is
    found; [z] is looked for past it and the [KeyError] is raised. *)
Lemma is_node_in_raft_peers_stops_at_match_witness :
  let raft_config :=
    VDict {[ "data" := VDict {[ "config" := VDict {[ "servers" :=
      VList [VDict {[ "node_id" := VStr "a" ]}; VDict ∅;
             VDict {[ "node_id" := VStr "z" ]}] ]} ]} ]} in
  Vault.is_node_in_raft_peers (Mock.returning raft_config) "a" (mkState 0%nat [])
    = (Ok true, mkState 1%nat [])
  /\ Vault.is_node_in_raft_peers (Mock.returning raft_config) "z" (mkState 0%nat [])
     = (Raise (Exn KeyError "node_id"), mkState 1%nat []).
Proof.
  intros raft_config.
  assert (Forall2 (fun server id => getitem server "node_id" = Ok (VStr id))
            [VDict {[ "node_id" := VStr "a" ]}] ["a"]) as Hgood
    by (constructor; [reflexivity|constructor]).
  pose proof (is_node_in_raft_peers_stops_at_match (Mock.returning raft_config))
    as Hstops.
  split.
  - refine (proj1 (Hstops "a" (mkState 0%nat []) raft_config 1%nat
                     [VDict {[ "node_id" := VStr "a" ]}] ["a"]
                     [VDict ∅; VDict {[ "node_id" := VStr "z" ]}]
                     eq_refl _ Hgood) _); [reflexivity|].
    apply (bool_decide_unpack _). by vm_compute.
  - refine (proj2 (Hstops "z" (mkState 0%nat []) raft_config 1%nat
                     [VDict {[ "node_id" := VStr "a" ]}] ["a"]
                     [VDict ∅; VDict {[ "node_id" := VStr "z" ]}]
                     eq_refl _ Hgood) _
                  (VDict ∅) [VDict {[ "node_id" := VStr "z" ]}]
                  (Exn KeyError "node_id") eq_refl eq_refl); [reflexivity|].
    apply (bool_decide_unpack _). by vm_compute.
Defined.

(** The two peer queries, run. *)
Lemma is_node_in_raft_peers_run {W} (c : Client W) node_id (st : state W) :
  Vault.is_node_in_raft_peers c node_id st
  = match sys_read_raft_config c (world st) with
    | (Raise e, w') => (Raise e, at_world w' st)
    | (Ok raft_config, w') =>
        match Vault.raft_servers raft_config with
        | Raise e => (Raise e, at_world w' st)
        | Ok servers =>
            match iter servers with
            | Raise e => (Raise e, at_world w' st)
            | Ok entries => Vault.scan_peers entries node_id (at_world w' st)
            end
        end
    end.
Proof.
  unfold Vault.is_node_in_raft_peers, bind, call, lift.
  destruct (sys_read_raft_config c (world st)) as [[raft_config|e] w']; [|done].
  destruct (Vault.raft_servers raft_config) as [servers|e]; [|done].
  by destruct (iter servers).
Qed.

Lemma get_num_raft_peers_run {W} (c : Client W) (st : state W) :
  Vault.get_num_raft_peers c st
  = match sys_read_raft_config c (world st) with
    | (Raise e, w') => (Raise e, at_world w' st)
    | (Ok raft_config, w') =>
        match Vault.raft_servers raft_config with
        | Raise e => (Raise e, at_world w' st)
        | Ok servers => (len servers, at_world w' st)
        end
    end.
Proof.
  unfold Vault.get_num_raft_peers, bind, call, lift.
  destruct (sys_read_raft_config c (world st)) as [[raft_config|e] w']; [|done].
  by destruct (Vault.raft_servers raft_config).
Qed.

(** X7.  The two peer queries agree on what they read: from the same
    state, when [is_node_in_raft_peers] finds a node,
    [get_num_raft_peers] returns a positive count, and when
    [get_num_raft_peers] returns 0, [is_node_in_raft_peers] is [False]
    for every id; in both cases the two methods leave the same cluster
    and log. *)
Theorem peer_queries_agree {W} (c : Client W) (st : state W) :
  (forall node_id st1,
     Vault.is_node_in_raft_peers c node_id st = (Ok true, st1) ->
     exists n, Vault.get_num_raft_peers c st = (Ok n, st1) /\ (0 < n)%Z)
  /\ (forall st1,
        Vault.get_num_raft_peers c st = (Ok 0%Z, st1) ->
        forall node_id, Vault.is_node_in_raft_peers c node_id st = (Ok false, st1)).
Proof.
  split.
  - intros node_id st1. rewrite is_node_in_raft_peers_run, get_num_raft_peers_run.
    destruct (sys_read_raft_config c (world st)) as [[raft_config|e] w']; [|done].
    destruct (Vault.raft_servers raft_config) as [servers|e]; [|done].
    destruct servers as [| | |s|l|d]; simpl; try done.
    + (* a string *)
      destruct (chars_strings s) as [names ->]. intros Hfound. exfalso.
      apply (scan_peers_strings names node_id (at_world w' st)).
      by rewrite Hfound.
    + (* a list *)
      intros Hfound.
      pose proof (scan_peers_pure l node_id (at_world w' st)) as Hpure.
      rewrite Hfound in Hpure. simpl in Hpure. subst st1.
      exists (Z.of_nat (length l)). split; [done|].
      assert (l <> []) as Hne
        by (apply (scan_peers_found l node_id (at_world w' st)); by rewrite Hfound).
      destruct l; [done|]. simpl. lia.
    + (* a dict *)
      intros Hfound. exfalso.
      apply (scan_peers_strings (map_to_list d).*1 node_id (at_world w' st)).
      by rewrite Hfound.
  - intros st1 Hnum node_id. revert Hnum.
    rewrite is_node_in_raft_peers_run, get_num_raft_peers_run.
    destruct (sys_read_raft_config c (world st)) as [[raft_config|e] w']; [|done].
    destruct (Vault.raft_servers raft_config) as [servers|e]; [|done].
    destruct servers as [| | |s|l|d]; simpl; try done.
    + intros [= Hlen <-]. by destruct s.
    + intros [= Hlen <-]. by destruct l.
    + intros [= Hlen <-].
      assert (d = ∅) as -> by (apply map_size_empty_inv; lia).
      by rewrite map_to_list_empty.
Qed.

(** On the reference cluster [b] is a peer and the count is 3. *)
Lemma peer_queries_agree_witness :
  exists n,
    Vault.get_num_raft_peers Sim.client (mkState serving_cluster [])
    = (Ok n, mkState serving_cluster [])
    /\ (0 < n)%Z.
Proof.
  exact (proj1 (peer_queries_agree Sim.client (mkState serving_cluster []))
           "b" (mkState serving_cluster []) eq_refl).
Defined.

(** ** The raft state and its [healthy] field *)

(** X8.  [is_raft_cluster_healthy] is [get_raft_cluster_state] followed
    by one subscript, and neither has a handler: the first returns a
    value exactly when the second returns a state that holds [healthy].
    An answer without [data] makes both raise [KeyError('data')]; a state
    without [healthy] is returned by [get_raft_cluster_state] while
    [is_raft_cluster_healthy] raises [KeyError('healthy')], it does not
    answer [False]. *)
Theorem raft_health_reads_state {W} (c : Client W) (st : state W) :
  (forall healthy st',
     Vault.is_raft_cluster_healthy c st = (Ok healthy, st')
     <-> exists data,
           Vault.get_raft_cluster_state c st = (Ok data, st')
           /\ getitem data "healthy" = Ok healthy)
  /\ (forall d w',
        adapter_get c RAFT_STATE_ENDPOINT (world st) = (Ok (VDict d), w') ->
        d !! "data" = None ->
        Vault.get_raft_cluster_state c st = (Raise (Exn KeyError "data"), at_world w' st)
        /\ Vault.is_raft_cluster_healthy c st
           = (Raise (Exn KeyError "data"), at_world w' st))
  /\ (forall d data w',
        adapter_get c RAFT_STATE_ENDPOINT (world st) = (Ok (VDict d), w') ->
        d !! "data" = Some (VDict data) ->
        data !! "healthy" = None ->
        Vault.get_raft_cluster_state c st = (Ok (VDict data), at_world w' st)
        /\ Vault.is_raft_cluster_healthy c st
           = (Raise (Exn KeyError "healthy"), at_world w' st)).
Proof.
  split_and!.
  - intros healthy st'. unfold Vault.is_raft_cluster_healthy.
    unfold bind at 1, lift at 1.
    destruct (Vault.get_raft_cluster_state c st) as [[data|e] st1]; split.
    + destruct (getitem data "healthy") as [h|e] eqn:Hh; [|done].
      intros [= <- <-]. by exists data.
    + intros (data' & [= <- <-] & ->). done.
    + done.
    + by intros (data' & [=] & _).
  - intros d w' Hget Hmissing. apply (call_run _ st) in Hget.
    assert (Vault.get_raft_cluster_state c st
            = (Raise (Exn KeyError "data"), at_world w' st)) as Hstate.
    { unfold Vault.get_raft_cluster_state. rewrite (bind_ok _ _ _ _ _ Hget).
      unfold lift. by rewrite (getitem_missing _ _ Hmissing). }
    split; [done|]. unfold Vault.is_raft_cluster_healthy. by apply bind_raise.
  - intros d data w' Hget Hdata Hmissing. apply (call_run _ st) in Hget.
    assert (Vault.get_raft_cluster_state c st = (Ok (VDict data), at_world w' st))
      as Hstate.
    { unfold Vault.get_raft_cluster_state. rewrite (bind_ok _ _ _ _ _ Hget).
      unfold lift. simpl. by rewrite Hdata. }
    split; [done|]. unfold Vault.is_raft_cluster_healthy.
    rewrite (bind_ok _ _ _ _ _ Hstate). unfold lift.
    by rewrite (getitem_missing _ _ Hmissing).
Qed.

(** An autopilot state that lists its voters and says nothing of health. *)
Lemma raft_health_reads_state_witness :
  let answer := VDict {[ "data" := VDict {[ "voters" := VList [VStr "a"] ]} ]} in
  Vault.get_raft_cluster_state (Mock.returning answer) (mkState 0%nat [])
    = (Ok (VDict {[ "voters" := VList [VStr "a"] ]}), mkState 1%nat [])
  /\ Vault.is_raft_cluster_healthy (Mock.returning answer) (mkState 0%nat [])
     = (Raise (Exn KeyError "healthy"), mkState 1%nat []).
Proof.
  intros answer.
  refine (proj2 (proj2 (raft_health_reads_state (Mock.returning answer) (mkState 0%nat [])))
            {[ "data" := VDict {[ "voters" := VList [VStr "a"] ]} ]}
            {[ "voters" := VList [VStr "a"] ]} 1%nat eq_refl _ _); reflexivity.
Defined.

(** ** The CA certificate of a PKI mount *)

(** X9.  [is_intermediate_ca_set(mount, certificate)] is [True] exactly
    when [get_intermediate_ca(mount)], from the same state, returns that
    certificate, [False] exactly when it returns another string, and it
    raises exactly the errors [get_intermediate_ca] raises; both leave
    the same cluster and log. *)
Theorem ca_set_iff_read {W} (c : Client W) (mount cert : string) (st st' : state W) :
  (Vault.is_intermediate_ca_set c mount cert st = (Ok true, st')
   <-> Vault.get_intermediate_ca c mount st = (Ok cert, st'))
  /\ (Vault.is_intermediate_ca_set c mount cert st = (Ok false, st')
      <-> exists other,
            other <> cert /\ Vault.get_intermediate_ca c mount st = (Ok other, st'))
  /\ (forall e,
        Vault.is_intermediate_ca_set c mount cert st = (Raise e, st')
        <-> Vault.get_intermediate_ca c mount st = (Raise e, st')).
Proof.
  unfold Vault.is_intermediate_ca_set, Vault.get_intermediate_ca, bind, call, ret.
  destruct (pki_read_ca_certificate c mount (world st)) as [[existing|e] w'].
  - destruct (decide (existing = cert)) as [->|Hne].
    + rewrite bool_decide_eq_true_2 by done. split_and!.
      * split; by intros [= <-].
      * split; [done|]. by intros (other & Hother & [= -> _]).
      * intros e. split; done.
    + rewrite bool_decide_eq_false_2 by done. split_and!.
      * split; [done|]. by intros [= -> _].
      * split.
        -- intros [= <-]. by exists existing.
        -- by intros (other & _ & [= _ <-]).
      * intros e. split; done.
  - split_and!.
    + split; done.
    + split; [done|]. by intros (other & _ & [=]).
    + intros e'. split; by intros [= <- <-].
Qed.

(** ** What [unseal] logs *)

Lemma unseal_after_rejection {W} (c : Client W) ks1 k ks2 (st : state W) w1 e w2 :
  accepted c ks1 (world st) w1 ->
  sys_submit_unseal_key c k w1 = (Raise e, w2) ->
  log (snd (Vault.unseal c (ks1 ++ k :: ks2) st)) = log st.
Proof.
  intros Hacc Hrej.
  pose proof (submit_all_rejected c ks1 k ks2 st w1 e w2 Hacc Hrej) as Hloop.
  unfold Vault.unseal. fold (submit_all c (ks1 ++ k :: ks2)).
  destruct (isinstance e InvalidRequest) eqn:Hcls.
  - rewrite (try_caught _ _ _ _ e (at_world w2 st)).
    + unfold bind, call. simpl.
      by destruct (sys_is_sealed c w2) as [[[|]|e'] w3].
    + by apply bind_raise.
    + by rewrite isinstance_any_one.
  - rewrite (try_passed _ _ _ _ e (at_world w2 st)); [done| |].
    + by apply bind_raise.
    + by rewrite isinstance_any_one.
Qed.

(** X10.  [unseal] logs "Vault is unsealed" exactly when the cluster
    accepted every key of the list, whatever the seal state then is; in
    every other run it logs nothing.  With an empty list no key is
    submitted, and the record is logged all the same. *)
Theorem unseal_logs_iff_accepted {W} (c : Client W) (ks : list string) (st : state W) :
  ((exists w', accepted c ks (world st) w') ->
   fst (Vault.unseal c ks st) = Ok tt
   /\ log (snd (Vault.unseal c ks st))
      = (log st ++ [LogRecord INFO "Vault is unsealed"])%list)
  /\ (~ (exists w', accepted c ks (world st) w') ->
      log (snd (Vault.unseal c ks st)) = log st)
  /\ Vault.unseal c [] st = (Ok tt, logged INFO "Vault is unsealed" st).
Proof.
  split_and!.
  - intros [w' Hacc].
    assert (Vault.unseal c ks st
            = (Ok tt, logged INFO "Vault is unsealed" (at_world w' st))) as ->; [|done].
    unfold Vault.unseal. apply try_ok. fold (submit_all c ks).
    by rewrite (bind_ok _ _ _ _ _ (submit_all_accepted c ks st w' Hacc)).
  - intros Hnot.
    destruct (accepted_or_rejected c ks (world st))
      as [Hacc|(ks1 & k & ks2 & w1 & e & w2 & -> & Hacc & Hrej)]; [done|].
    by apply (unseal_after_rejection c ks1 k ks2 st w1 e w2).
  - by destruct st.
Qed.

(** Two of five keys on the reference cluster, threshold three: the keys
    are accepted, the record is logged, and the cluster is still sealed. *)
Lemma unseal_logs_iff_accepted_witness :
  fst (Vault.unseal Sim.client ["unseal-key-1"; "unseal-key-2"] (mkState sealed_cluster []))
    = Ok tt
  /\ log (snd (Vault.unseal Sim.client ["unseal-key-1"; "unseal-key-2"]
                 (mkState sealed_cluster [])))
     = [LogRecord INFO "Vault is unsealed"]
  /\ Sim.phase (world (snd (Vault.unseal Sim.client ["unseal-key-1"; "unseal-key-2"]
                              (mkState sealed_cluster [])))) = SEALED.
Proof.
  assert (exists w', accepted Sim.client ["unseal-key-1"; "unseal-key-2"] sealed_cluster w')
    as Hacc.
  { eexists. repeat (eapply accepted_cons; [vm_compute; reflexivity|]).
    apply accepted_nil. }
  destruct (proj1 (unseal_logs_iff_accepted Sim.client ["unseal-key-1"; "unseal-key-2"]
                     (mkState sealed_cluster [])) Hacc) as [Hok Hlog].
  split_and!; [exact Hok|exact Hlog|reflexivity].
Defined.

(** ** [is_pki_role_created] *)

Lemma eq_str_true v s : eq_str v s = true <-> v = VStr s.
Proof.
  destruct v; simpl; try (split; [done|by intros [=]]).
  rewrite bool_decide_eq_true. split; [by intros ->|by intros [= ->]].
Qed.

Lemma contains_list l s found :
  contains (VList l) s = Ok found -> (found = true <-> VStr s ∈ l).
Proof.
  simpl. intros [= <-]. rewrite existsb_exists. split.
  - intros (x & Hin & Hx). apply eq_str_true in Hx. subst x.
    by apply list_elem_of_In.
  - intros Hin. exists (VStr s). split; [by apply list_elem_of_In|].
    by apply eq_str_true.
Qed.

(** X11.  [is_pki_role_created] turns one class of error into an answer:
    when listing the roles raises [InvalidPath] it returns [False] and
    logs nothing.  Every other error of the call, an [InvalidRequest]
    included, is raised to the caller, and so is the error of a
    subscript when the answer has no [data] envelope. *)
Theorem is_pki_role_created_swallows_invalid_path {W} (c : AdminClient W)
    (role mount : string) (st : state W) :
  (forall e w',
     pki_list_roles c mount (world st) = (Raise e, w') ->
     VaultAdmin.is_pki_role_created c role mount st
     = if isinstance e InvalidPath
       then (Ok false, at_world w' st)
       else (Raise e, at_world w' st))
  /\ (forall existing_roles w' e,
        pki_list_roles c mount (world st) = (Ok existing_roles, w') ->
        getitem existing_roles "data" = Raise e ->
        VaultAdmin.is_pki_role_created c role mount st = (Raise e, at_world w' st)).
Proof.
  split.
  - intros e w' Hlist. apply (call_run _ st) in Hlist.
    unfold VaultAdmin.is_pki_role_created.
    destruct (isinstance e InvalidPath) eqn:Hcls.
    + rewrite (try_caught _ _ _ _ e (at_world w' st));
        [done|by apply bind_raise|by rewrite isinstance_any_one].
    + apply try_passed; [by apply bind_raise|by rewrite isinstance_any_one].
  - intros existing_roles w' e Hlist Hdata. apply (call_run _ st) in Hlist.
    unfold VaultAdmin.is_pki_role_created. apply try_passed.
    + rewrite (bind_ok _ _ _ _ _ Hlist). unfold bind, lift. by rewrite Hdata.
    + rewrite isinstance_any_one.
      by apply builtin_not_caught; [eapply getitem_raises_builtin|..].
Qed.

(** A mount with no role answers "path not found"; a refused request is
    raised. *)
Lemma is_pki_role_created_swallows_invalid_path_witness :
  VaultAdmin.is_pki_role_created (Mock.admin (Raise (Exn InvalidPath "no roles")))
    "charm" "charm-pki" (mkState 0%nat [])
  = (Ok false, mkState 1%nat [])
  /\ VaultAdmin.is_pki_role_created (Mock.admin (Raise (Exn InvalidRequest "bad mount")))
       "charm" "charm-pki" (mkState 0%nat [])
     = (Raise (Exn InvalidRequest "bad mount"), mkState 1%nat []).
Proof.
  split.
  - exact (proj1 (is_pki_role_created_swallows_invalid_path
                    (Mock.admin (Raise (Exn InvalidPath "no roles")))
                    "charm" "charm-pki" (mkState 0%nat []))
             _ 1%nat eq_refl).
  - exact (proj1 (is_pki_role_created_swallows_invalid_path
                    (Mock.admin (Raise (Exn InvalidRequest "bad mount")))
                    "charm" "charm-pki" (mkState 0%nat []))
             _ 1%nat eq_refl).
Defined.

(** X12.  When the roles are listed, [is_pki_role_created(role, mount)]
    is [True] exactly when the list under [data.keys] holds a string
    equal to [role]: the whole name, not a part of it, and an entry that
    is no string never matches.  Nothing is logged. *)
Theorem is_pki_role_created_membership {W} (c : AdminClient W)
    (role mount : string) (st : state W) existing_roles w' data names :
  pki_list_roles c mount (world st) = (Ok existing_roles, w') ->
  getitem existing_roles "data" = Ok data ->
  getitem data "keys" = Ok (VList names) ->
  exists found,
    VaultAdmin.is_pki_role_created c role mount st = (Ok found, at_world w' st)
    /\ (found = true <-> VStr role ∈ names).
Proof.
  intros Hlist Hdata Hkeys. apply (call_run _ st) in Hlist.
  exists (existsb (fun x => eq_str x role) names). split.
  - unfold VaultAdmin.is_pki_role_created. apply try_ok.
    rewrite (bind_ok _ _ _ _ _ Hlist). unfold bind, lift.
    by rewrite Hdata, Hkeys.
  - by apply contains_list.
Qed.

(** Two roles are listed: [charm] is one of them, [char] is not. *)
Lemma is_pki_role_created_membership_witness :
  let answer :=
    VDict {[ "data" := VDict {[ "keys" := VList [VStr "charm"; VStr "other"] ]} ]} in
  VaultAdmin.is_pki_role_created (Mock.admin (Ok answer)) "charm" "charm-pki"
    (mkState 0%nat [])
  = (Ok true, mkState 1%nat [])
  /\ VaultAdmin.is_pki_role_created (Mock.admin (Ok answer)) "char" "charm-pki"
       (mkState 0%nat [])
     = (Ok false, mkState 1%nat []).
Proof.
  intros answer.
  destruct (is_pki_role_created_membership (Mock.admin (Ok answer))
              "charm" "charm-pki" (mkState 0%nat []) answer 1%nat
              (VDict {[ "keys" := VList [VStr "charm"; VStr "other"] ]})
              [VStr "charm"; VStr "other"] eq_refl)
    as (found & Hrun & Hfound); [reflexivity..|].
  split; [|reflexivity].
  rewrite Hrun. do 2 f_equal. apply Hfound. apply elem_of_cons. by left.
Defined.

(** ** [configure_approle] *)

(** X13.  [configure_approle] makes two calls in order, the upsert of the
    role with both token lifetimes at "60s" and the secret id bound, then
    the read of the role id.  When the upsert raises, the error reaches
    the caller and the role id is not read; when the read raises, its
    error reaches the caller; otherwise the method returns
    [data.role_id] of the read and ignores what the upsert returned. *)
Theorem configure_approle_sequence {W} (c : AdminClient W)
    (role_name : string) (cidrs policies : list string) (st : state W) :
  (forall e w1,
     approle_create_or_update_approle c role_name "60s" "60s" policies "true" cidrs
       (world st) = (Raise e, w1) ->
     VaultAdmin.configure_approle c role_name cidrs policies st
     = (Raise e, at_world w1 st))
  /\ (forall r w1 e w2,
        approle_create_or_update_approle c role_name "60s" "60s" policies "true" cidrs
          (world st) = (Ok r, w1) ->
        approle_read_role_id c role_name w1 = (Raise e, w2) ->
        VaultAdmin.configure_approle c role_name cidrs policies st
        = (Raise e, at_world w2 st))
  /\ (forall r w1 response w2 data role_id,
        approle_create_or_update_approle c role_name "60s" "60s" policies "true" cidrs
          (world st) = (Ok r, w1) ->
        approle_read_role_id c role_name w1 = (Ok response, w2) ->
        getitem response "data" = Ok data ->
        getitem data "role_id" = Ok role_id ->
        VaultAdmin.configure_approle c role_name cidrs policies st
        = (Ok role_id, at_world w2 st)).
Proof.
  split_and!.
  - intros e w1 Hcreate. unfold VaultAdmin.configure_approle.
    apply bind_raise. by apply call_run.
  - intros r w1 e w2 Hcreate Hread. unfold VaultAdmin.configure_approle.
    rewrite (bind_ok _ _ _ _ _ (call_run _ st _ _ Hcreate)).
    apply bind_raise. by apply (call_run _ (at_world w1 st)).
  - intros r w1 response w2 data role_id Hcreate Hread Hdata Hid.
    unfold VaultAdmin.configure_approle.
    rewrite (bind_ok _ _ _ _ _ (call_run _ st _ _ Hcreate)).
    rewrite (bind_ok _ _ _ _ _ (call_run _ (at_world w1 st) _ _ Hread)).
    unfold bind, lift. by rewrite Hdata, Hid.
Qed.

(** The test double counts the calls: one when the upsert is refused,
    two when the role id is returned. *)
Lemma configure_approle_sequence_witness :
  VaultAdmin.configure_approle (Mock.admin (Raise (Exn Forbidden "permission denied")))
    "charm" ["10.0.0.0/24"] ["charm-policy"] (mkState 0%nat [])
  = (Raise (Exn Forbidden "permission denied"), mkState 1%nat [])
  /\ VaultAdmin.configure_approle
       (Mock.admin (Ok (VDict {[ "data" := VDict {[ "role_id" := VStr "4f2a" ]} ]})))
       "charm" ["10.0.0.0/24"] ["charm-policy"] (mkState 0%nat [])
     = (Ok (VStr "4f2a"), mkState 2%nat []).
Proof.
  split.
  - exact (proj1 (configure_approle_sequence
                    (Mock.admin (Raise (Exn Forbidden "permission denied")))
                    "charm" ["10.0.0.0/24"] ["charm-policy"] (mkState 0%nat []))
             _ 1%nat eq_refl).
  - refine (proj2 (proj2 (configure_approle_sequence
                            (Mock.admin (Ok (VDict {[ "data" := VDict {[ "role_id" := VStr "4f2a" ]} ]})))
                            "charm" ["10.0.0.0/24"] ["charm-policy"] (mkState 0%nat [])))
              _ 1%nat _ 2%nat (VDict {[ "role_id" := VStr "4f2a" ]}) (VStr "4f2a")
              eq_refl eq_refl _ _); reflexivity.
Defined.

(** ** [generate_pki_intermediate_ca_csr] *)

(** X14.  [generate_pki_intermediate_ca_csr] asks for an intermediate of
    type "internal" and logs as soon as the call returns.  An error of
    the call reaches the caller with nothing logged; an answer whose
    [data] envelope holds [csr] gives that value; an envelope without
    [csr] raises [KeyError('csr')] after the cluster generated the
    intermediate and after "Generated a CSR" was logged. *)
Theorem generate_csr_reads_after_logging {W} (c : AdminClient W)
    (mount common_name : string) (st : state W) :
  let st_logged w' :=
    logged INFO "Generated a CSR for the intermediate CA for the PKI backend"
      (at_world w' st) in
  (forall e w',
     pki_generate_intermediate c mount common_name "internal" (world st) = (Raise e, w') ->
     VaultAdmin.generate_pki_intermediate_ca_csr c mount common_name st
     = (Raise e, at_world w' st))
  /\ (forall response w' d,
        pki_generate_intermediate c mount common_name "internal" (world st)
        = (Ok response, w') ->
        getitem response "data" = Ok (VDict d) ->
        VaultAdmin.generate_pki_intermediate_ca_csr c mount common_name st
        = match d !! "csr" with
          | Some csr => (Ok csr, st_logged w')
          | None => (Raise (Exn KeyError "csr"), st_logged w')
          end).
Proof.
  intros st_logged. split.
  - intros e w' Hgen. unfold VaultAdmin.generate_pki_intermediate_ca_csr.
    apply bind_raise. by apply call_run.
  - intros response w' d Hgen Hdata.
    unfold VaultAdmin.generate_pki_intermediate_ca_csr.
    rewrite (bind_ok _ _ _ _ _ (call_run _ st _ _ Hgen)).
    unfold bind, emit, lift. simpl. rewrite Hdata. simpl.
    by destruct (d !! "csr").
Qed.

(** An answer that carries a private key and no CSR. *)
Lemma generate_csr_reads_after_logging_witness :
  VaultAdmin.generate_pki_intermediate_ca_csr
    (Mock.admin (Ok (VDict {[ "data" := VDict {[ "private_key" := VStr "pem" ]} ]})))
    "charm-pki" "vault.local" (mkState 0%nat [])
  = (Raise (Exn KeyError "csr"),
     mkState 1%nat
       [LogRecord INFO "Generated a CSR for the intermediate CA for the PKI backend"]).
Proof.
  refine (proj2 (generate_csr_reads_after_logging
                   (Mock.admin (Ok (VDict {[ "data" := VDict {[ "private_key" := VStr "pem" ]} ]})))
                   "charm-pki" "vault.local" (mkState 0%nat []))
            _ 1%nat {[ "private_key" := VStr "pem" ]} eq_refl _).
  reflexivity.
Defined.
